(** * EcoScan: the waste-classifier view controller and its classification client

    A shallow embedding of the React component [App] (the five-state view
    controller, the camera glue and the rendering), of the service module it
    imports as [./services/geminiService] ([analyzeWaste]) and of [types.ts].

    Conventions of the embedding.
    - A JavaScript [string] is a [string]; [string | null] is [option string].
    - The component's four [useState] cells, its two refs that the handlers
      read, the console, the requests sent to the model service and the set of
      live camera tracks make up a [World]; handlers are computations in a
      state-and-exception monad [M] over it.
    - [await] gives control back to the event loop: React commits the pending
      render (which mounts or unmounts the [<video>] element, hence changes
      [videoRef.current]) and the committed world is appended to the run's
      list of frames.  The settled value of the awaited promise is an input
      of the model ([Settled]).
    - Browser and runtime builtins ([FileReader.readAsDataURL],
      [canvas.toDataURL], [String.prototype.split], [JSON.parse],
      [Math.round]) are modelled from their specifications; the JPEG encoder
      is a parameter. *)

From Stdlib Require Import String Ascii List Bool Arith NArith ZArith Lia.
From Stdlib Require Import QArith Qround.
From Stdlib.Strings Require Import Byte.
From Stdlib Require Import DecimalString.
Import ListNotations.

Local Open Scope string_scope.
Local Open Scope list_scope.

Set Warnings "-register-all".

(* ================================================================== *)
(** * JavaScript strings *)
(* ================================================================== *)

Module JsString.

(** [s.split(sep)] for a one-character separator: the pieces between the
    occurrences of [sep]; the empty string splits into one empty piece. *)
Fixpoint split (sep : ascii) (s : string) : list string :=
  match s with
  | EmptyString => [EmptyString]
  | String c rest =>
      if Ascii.eqb c sep then EmptyString :: split sep rest
      else match split sep rest with
           | [] => [String c EmptyString]
           | piece :: pieces => String c piece :: pieces
           end
  end.

(** [c] does not occur in [s]. *)
Fixpoint lacks (c : ascii) (s : string) : bool :=
  match s with
  | EmptyString => true
  | String d rest => negb (Ascii.eqb d c) && lacks c rest
  end.

Definition is_upper (c : ascii) : bool :=
  let n := nat_of_ascii c in (65 <=? n)%nat && (n <=? 90)%nat.

Definition lower_char (c : ascii) : ascii :=
  if is_upper c then ascii_of_nat (nat_of_ascii c + 32) else c.

(** [s.toLowerCase()] on ASCII text (bytes above 127 are left as they are). *)
Fixpoint toLowerCase (s : string) : string :=
  match s with
  | EmptyString => EmptyString
  | String c rest => String (lower_char c) (toLowerCase rest)
  end.

(** Truthiness of a string: only the empty string is falsy. *)
Definition truthy (s : string) : bool :=
  match s with EmptyString => false | String _ _ => true end.

(** Truthiness of a [string | null | undefined]. *)
Definition truthy_opt (s : option string) : bool :=
  match s with Some s => truthy s | None => false end.

(** [s.startsWith(p)]. *)
Definition startsWith (p s : string) : bool := String.prefix p s.

End JsString.

(* ================================================================== *)
(** * Base64 and data URLs *)
(* ================================================================== *)

Module Base64.

Definition alphabet : string :=
  "ABCDEFGHIJKLMNOPQRSTUVWXYZabcdefghijklmnopqrstuvwxyz0123456789+/".

Definition pad : ascii := "="%char.

(** The character of a sextet. *)
Definition char_of (n : N) : ascii :=
  match String.get (N.to_nat n) alphabet with
  | Some c => c
  | None => pad
  end.

(** The sextet of a character of the alphabet. *)
Definition index_of (c : ascii) : option N :=
  let n := N_of_ascii c in
  if (65 <=? n)%N && (n <=? 90)%N then Some (n - 65)%N
  else if (97 <=? n)%N && (n <=? 122)%N then Some (n - 71)%N
  else if (48 <=? n)%N && (n <=? 57)%N then Some (n + 4)%N
  else if (n =? 43)%N then Some 62%N
  else if (n =? 47)%N then Some 63%N
  else None.

Definition sextet1 (a : N) : N := (a / 4)%N.
Definition sextet2 (a b : N) : N := ((a mod 4) * 16 + b / 16)%N.
Definition sextet3 (b c : N) : N := ((b mod 16) * 4 + c / 64)%N.
Definition sextet4 (c : N) : N := (c mod 64)%N.

(** RFC 4648 encoding, with padding. *)
Fixpoint encode (bs : list byte) : string :=
  match bs with
  | [] => EmptyString
  | [a] =>
      let a := Byte.to_N a in
      String (char_of (sextet1 a)) (String (char_of (sextet2 a 0))
        (String pad (String pad EmptyString)))
  | [a; b] =>
      let a := Byte.to_N a in
      let b := Byte.to_N b in
      String (char_of (sextet1 a)) (String (char_of (sextet2 a b))
        (String (char_of (sextet3 b 0)) (String pad EmptyString)))
  | a :: b :: c :: rest =>
      let a := Byte.to_N a in
      let b := Byte.to_N b in
      let c := Byte.to_N c in
      String (char_of (sextet1 a)) (String (char_of (sextet2 a b))
        (String (char_of (sextet3 b c)) (String (char_of (sextet4 c))
          (encode rest))))
  end.

Definition octet1 (s1 s2 : N) : N := (s1 * 4 + s2 / 16)%N.
Definition octet2 (s2 s3 : N) : N := ((s2 mod 16) * 16 + s3 / 4)%N.
Definition octet3 (s3 s4 : N) : N := ((s3 mod 4) * 64 + s4)%N.

Definition bytes_of (ns : list N) : option (list byte) :=
  fold_right
    (fun n acc =>
       match Byte.of_N n, acc with
       | Some b, Some bs => Some (b :: bs)
       | _, _ => None
       end)
    (Some []) ns.

Definition cons_all (front : option (list byte)) (back : option (list byte))
  : option (list byte) :=
  match front, back with
  | Some f, Some b => Some (f ++ b)
  | _, _ => None
  end.

(** Decoding of padded base64 text; [None] on text that is not base64. *)
Fixpoint decode (s : string) : option (list byte) :=
  match s with
  | EmptyString => Some []
  | String c1 (String c2 (String c3 (String c4 rest))) =>
      match index_of c1, index_of c2 with
      | Some s1, Some s2 =>
          if Ascii.eqb c4 pad then
            match rest with
            | EmptyString =>
                if Ascii.eqb c3 pad then bytes_of [octet1 s1 s2]
                else match index_of c3 with
                     | Some s3 => bytes_of [octet1 s1 s2; octet2 s2 s3]
                     | None => None
                     end
            | String _ _ => None
            end
          else
            match index_of c3, index_of c4 with
            | Some s3, Some s4 =>
                cons_all
                  (bytes_of [octet1 s1 s2; octet2 s2 s3; octet3 s3 s4])
                  (decode rest)
            | _, _ => None
            end
      | _, _ => None
      end
  | _ => None
  end.

End Base64.

(* ================================================================== *)
(** * JSON values and [JSON.parse] *)
(* ================================================================== *)

Module Json.

(** A JSON value.  A number is the exact rational its literal denotes; the
    members of an object are kept in insertion order, as [Object.entries]
    lists them (keys that are array indices apart: JavaScript lists those
    first). *)
Inductive value : Type :=
| Null
| Bool (b : bool)
| Number (q : Q)
| Str (s : string)
| Arr (items : list value)
| Obj (members : list (string * value)).

(** [o[k]]: [None] stands for [undefined]. *)
Fixpoint lookup (k : string) (members : list (string * value)) : option value :=
  match members with
  | [] => None
  | (k', v) :: rest => if String.eqb k' k then Some v else lookup k rest
  end.

(** Property access [v.k] on a parsed value. *)
Definition prop (k : string) (v : value) : option value :=
  match v with
  | Obj members => lookup k members
  | _ => None
  end.

(** Defining a member: a repeated key keeps its place and takes the new value. *)
Fixpoint set_member (k : string) (v : value) (members : list (string * value))
  : list (string * value) :=
  match members with
  | [] => [(k, v)]
  | (k', v') :: rest =>
      if String.eqb k' k then (k', v) :: rest
      else (k', v') :: set_member k v rest
  end.

Definition of_members (members : list (string * value)) : value :=
  Obj (fold_left (fun acc kv => set_member (fst kv) (snd kv) acc) members []).

(** ** Lexical level *)

Definition is_ws (c : ascii) : bool :=
  let n := nat_of_ascii c in
  (n =? 32)%nat || (n =? 9)%nat || (n =? 10)%nat || (n =? 13)%nat.

Fixpoint skip_ws (s : string) : string :=
  match s with
  | String c rest => if is_ws c then skip_ws rest else s
  | EmptyString => s
  end.

Definition digit_of (c : ascii) : option Z :=
  let n := nat_of_ascii c in
  if (48 <=? n)%nat && (n <=? 57)%nat then Some (Z.of_nat (n - 48)) else None.

Definition hex_of (c : ascii) : option N :=
  let n := N_of_ascii c in
  if (48 <=? n)%N && (n <=? 57)%N then Some (n - 48)%N
  else if (65 <=? n)%N && (n <=? 70)%N then Some (n - 55)%N
  else if (97 <=? n)%N && (n <=? 102)%N then Some (n - 87)%N
  else None.

(** The longest run of digits at the front of [s]: its value, its length
    and what follows. *)
Fixpoint digits (acc : Z) (len : nat) (s : string) : Z * nat * string :=
  match s with
  | String c rest =>
      match digit_of c with
      | Some d => digits (10 * acc + d)%Z (S len) rest
      | None => (acc, len, s)
      end
  | EmptyString => (acc, len, s)
  end.

(** [m * 10^e] as a reduced fraction. *)
Definition scale (m e : Z) : Q :=
  if (0 <=? e)%Z then Qred (Qmake (m * 10 ^ e)%Z 1)
  else Qred (Qmake m (Z.to_pos (10 ^ (- e))%Z)).

(** The integer part of a number: [0] alone or a digit run not starting with [0]. *)
Definition int_part (s : string) : option (Z * string) :=
  match s with
  | String "0" rest => Some (0%Z, rest)
  | _ => match digits 0 0 s with
         | (_, O, _) => None
         | (n, S _, rest) => Some (n, rest)
         end
  end.

Definition frac_part (m : Z) (s : string) : option (Z * Z * string) :=
  match s with
  | String "." rest =>
      match digits m 0 rest with
      | (_, O, _) => None
      | (m', S k, rest') => Some (m', Z.of_nat (S k), rest')
      end
  | _ => Some (m, 0%Z, s)
  end.

Definition exp_part (s : string) : option (Z * string) :=
  match s with
  | String c rest =>
      if Ascii.eqb c "e" || Ascii.eqb c "E" then
        let '(neg, rest1) :=
          match rest with
          | String "-" r => (true, r)
          | String "+" r => (false, r)
          | _ => (false, rest)
          end in
        match digits 0 0 rest1 with
        | (_, O, _) => None
        | (e, S _, rest2) => Some (if neg then (- e)%Z else e, rest2)
        end
      else Some (0%Z, s)
  | EmptyString => Some (0%Z, s)
  end.

(** A number literal: [-? int frac? exp?]. *)
Definition number (s : string) : option (Q * string) :=
  let '(neg, s1) :=
    match s with
    | String "-" r => (true, r)
    | _ => (false, s)
    end in
  match int_part s1 with
  | None => None
  | Some (n, s2) =>
      match frac_part n s2 with
      | None => None
      | Some (m, k, s3) =>
          match exp_part s3 with
          | None => None
          | Some (e, s4) =>
              Some (scale (if neg then (- m)%Z else m) (e - k), s4)
          end
      end
  end.

(** The UTF-8 bytes of a [\uXXXX] escape (a surrogate is encoded on its own). *)
Definition utf8 (u : N) : string :=
  if (u <? 128)%N then String (ascii_of_N u) EmptyString
  else if (u <? 2048)%N then
    String (ascii_of_N (192 + u / 64))
      (String (ascii_of_N (128 + u mod 64)) EmptyString)
  else
    String (ascii_of_N (224 + u / 4096))
      (String (ascii_of_N (128 + (u / 64) mod 64))
        (String (ascii_of_N (128 + u mod 64)) EmptyString)).

(** The double quote, U+0022. *)
Definition dquote : ascii := ascii_of_nat 34.

Definition escape (c : ascii) : option ascii :=
  if Ascii.eqb c dquote then Some dquote
  else if Ascii.eqb c "\" then Some "\"%char
  else if Ascii.eqb c "/" then Some "/"%char
  else if Ascii.eqb c "b" then Some (ascii_of_nat 8)
  else if Ascii.eqb c "f" then Some (ascii_of_nat 12)
  else if Ascii.eqb c "n" then Some (ascii_of_nat 10)
  else if Ascii.eqb c "r" then Some (ascii_of_nat 13)
  else if Ascii.eqb c "t" then Some (ascii_of_nat 9)
  else None.

(** The characters of a string literal, after its opening quote. *)
Fixpoint chars (s : string) : option (string * string) :=
  match s with
  | EmptyString => None
  | String c rest =>
      if Ascii.eqb c dquote then Some (EmptyString, rest)
      else if Ascii.eqb c "\" then
        match rest with
        | EmptyString => None
        | String e rest1 =>
            if Ascii.eqb e "u" then
              match rest1 with
              | String h1 (String h2 (String h3 (String h4 rest'))) =>
                  match hex_of h1, hex_of h2, hex_of h3, hex_of h4 with
                  | Some a, Some b, Some c', Some d =>
                      match chars rest' with
                      | Some (body, after) =>
                          Some (String.append
                                  (utf8 (a * 4096 + b * 256 + c' * 16 + d)) body,
                                after)
                      | None => None
                      end
                  | _, _, _, _ => None
                  end
              | _ => None
              end
            else
              match escape e, chars rest1 with
              | Some c', Some (body, after) => Some (String c' body, after)
              | _, _ => None
              end
        end
      else if (nat_of_ascii c <? 32)%nat then None
      else match chars rest with
           | Some (body, after) => Some (String c body, after)
           | None => None
           end
  end.

Definition literal (word : string) (v : value) (s : string)
  : option (value * string) :=
  if String.prefix word s
  then Some (v, String.substring (String.length word) (String.length s) s)
  else None.

(** ** Values *)

Fixpoint parse_value (fuel : nat) (s : string) : option (value * string) :=
  match fuel with
  | O => None
  | S fuel =>
      match skip_ws s with
      | EmptyString => None
      | String c rest as t =>
          if Ascii.eqb c "n" then literal "null" Null t
          else if Ascii.eqb c "t" then literal "true" (Bool true) t
          else if Ascii.eqb c "f" then literal "false" (Bool false) t
          else if Ascii.eqb c dquote then
            match chars rest with
            | Some (body, after) => Some (Str body, after)
            | None => None
            end
          else if Ascii.eqb c "[" then
            match skip_ws rest with
            | String "]" after => Some (Arr [], after)
            | _ =>
                match parse_elements fuel rest with
                | Some (items, after) => Some (Arr items, after)
                | None => None
                end
            end
          else if Ascii.eqb c "{" then
            match skip_ws rest with
            | String "}" after => Some (Obj [], after)
            | _ =>
                match parse_members fuel rest with
                | Some (members, after) => Some (of_members members, after)
                | None => None
                end
            end
          else
            match number t with
            | Some (q, after) => Some (Number q, after)
            | None => None
            end
      end
  end

with parse_elements (fuel : nat) (s : string) : option (list value * string) :=
  match fuel with
  | O => None
  | S fuel =>
      match parse_value fuel s with
      | None => None
      | Some (v, after) =>
          match skip_ws after with
          | String "," more =>
              match parse_elements fuel more with
              | Some (vs, after') => Some (v :: vs, after')
              | None => None
              end
          | String "]" after' => Some ([v], after')
          | _ => None
          end
      end
  end

with parse_members (fuel : nat) (s : string)
  : option (list (string * value) * string) :=
  match fuel with
  | O => None
  | S fuel =>
      match skip_ws s with
      | EmptyString => None
      | String c rest =>
          if Ascii.eqb c dquote then
            match chars rest with
            | None => None
            | Some (key, after) =>
                match skip_ws after with
                | String ":" more =>
                    match parse_value fuel more with
                    | None => None
                    | Some (v, after') =>
                        match skip_ws after' with
                        | String "," more' =>
                            match parse_members fuel more' with
                            | Some (kvs, after'') =>
                                Some ((key, v) :: kvs, after'')
                            | None => None
                            end
                        | String "}" after'' => Some ([(key, v)], after'')
                        | _ => None
                        end
                    end
                | _ => None
                end
            end
          else None
      end
  end.

(** [JSON.parse(text)]: the value of the text, or [None] where [JSON.parse]
    throws a [SyntaxError].  Every level of nesting consumes a character,
    so twice the length of the text is fuel enough. *)
Definition parse (text : string) : option value :=
  match parse_value (2 * String.length text + 2) text with
  | Some (v, after) =>
      match skip_ws after with
      | EmptyString => Some v
      | String _ _ => None
      end
  | None => None
  end.

End Json.

(* ================================================================== *)
(** * [types.ts] *)
(* ================================================================== *)

(** [AppState = 'idle' | 'capturing' | 'analyzing' | 'result' | 'error']. *)
Module AppState.

Inductive t : Type := idle | capturing | analyzing | result | error.

Definition eqb (a b : t) : bool :=
  match a, b with
  | idle, idle | capturing, capturing | analyzing, analyzing
  | result, result | error, error => true
  | _, _ => false
  end.

End AppState.

(** The shape of a JSON value, as the service's response schema and the
    [WasteAnalysis] interface describe it. *)
Inductive Schema : Type :=
| TString (description : string)
| TNumber (description : string)
| TBoolean (description : string)
| TObject (properties : list (string * Schema)) (required : list string).

(** [v] has the shape [t]: the right kind of value, every required key
    present, every declared property that is present of its declared shape. *)
Fixpoint conforms (t : Schema) (v : Json.value) : bool :=
  match t, v with
  | TString _, Json.Str _ => true
  | TNumber _, Json.Number _ => true
  | TBoolean _, Json.Bool _ => true
  | TObject properties required, Json.Obj members =>
      forallb
        (fun k => match Json.lookup k members with Some _ => true | None => false end)
        required
      && (fix each (ps : list (string * Schema)) : bool :=
            match ps with
            | [] => true
            | (k, t') :: ps' =>
                match Json.lookup k members with
                | Some v' => conforms t' v'
                | None => true
                end && each ps'
            end) properties
  | _, _ => false
  end.

(** [interface WasteAnalysis]: the fields and their types. *)
Module WasteAnalysis.

Definition confidences : Schema :=
  TObject
    [ ("glass", TNumber EmptyString);
      ("plastic", TNumber EmptyString);
      ("paper", TNumber EmptyString);
      ("cardboard", TNumber EmptyString);
      ("other", TNumber EmptyString) ]
    [ "glass"; "plastic"; "paper"; "cardboard"; "other" ].

Definition interface : Schema :=
  TObject
    [ ("mainMaterial", TString EmptyString);
      ("confidences", confidences);
      ("recyclingTip", TString EmptyString);
      ("isRecyclable", TBoolean EmptyString) ]
    [ "mainMaterial"; "confidences"; "recyclingTip"; "isRecyclable" ].

(** A value that the type checker may take for a [WasteAnalysis]. *)
Definition has_type (v : Json.value) : bool := conforms interface v.

End WasteAnalysis.

(* ================================================================== *)
(** * The browser: errors, promises, media, canvas, files *)
(* ================================================================== *)

(** A thrown value: an [Error] (or [DOMException]) with its name and message. *)
Record JsError : Type := { name : string; message : string }.

(** How an awaited promise settles. *)
Inductive Settled (A : Type) : Type :=
| Fulfilled (a : A)
| Rejected (e : JsError).

Arguments Fulfilled {A} a.
Arguments Rejected {A} e.

(** A [MediaStream]: the identifiers of its tracks. *)
Record MediaStream : Type := { getTracks : list nat }.

(** Raw pixels of a video frame or of a canvas. *)
Definition Bitmap : Type := list byte.

(** The [<video>] element: [currentFrame] is [None] until the stream delivers
    a frame, and [videoWidth], [videoHeight] are [0] until then. *)
Record HTMLVideoElement : Type := {
  srcObject : option MediaStream;
  videoWidth : nat;
  videoHeight : nat;
  currentFrame : option Bitmap
}.

(** The hidden [<canvas>]: [drawn] is what has been painted since the last
    resize; [context2d] says whether [getContext('2d')] yields a context. *)
Record HTMLCanvasElement : Type := {
  width : nat;
  height : nat;
  drawn : option Bitmap;
  context2d : bool
}.

(** A [File] of the file input. *)
Record File : Type := { type : string; contents : list byte }.

(** [e.target.files]: [None] is [null]. *)
Record ChangeEvent : Type := { files : option (list File) }.

(** The request [ai.models.generateContent] sends: the model, the two parts
    of its contents and its config.  [inlineData_data] is [None] when the
    expression given for it is [undefined]. *)
Record GenerateContentRequest : Type := {
  model : string;
  contents_text : string;
  inlineData_mimeType : string;
  inlineData_data : option string;
  config_responseMimeType : string;
  config_responseSchema : Schema
}.

(** The response: [text] is [None] when the property is [undefined]. *)
Record GenerateContentResponse : Type := { response_text : option string }.

(* ================================================================== *)
(** * The component's world *)
(* ================================================================== *)

(** The four [useState] cells, the refs, and what the handlers reach outside
    the component: the tracks the camera keeps live, the console and the
    requests sent to the model service.  [analysis] holds the parsed value as
    it came ([None] and [Some Json.Null] are both JavaScript's null). *)
Record World : Type := {
  state : AppState.t;
  image : option string;
  analysis : option Json.value;
  error : option string;
  videoRef : option HTMLVideoElement;
  canvasRef : option HTMLCanvasElement;
  liveTracks : list nat;
  console : list string;
  requests : list GenerateContentRequest
}.

Definition with_state (s : AppState.t) (w : World) : World :=
  {| state := s; image := image w; analysis := analysis w; error := error w;
     videoRef := videoRef w; canvasRef := canvasRef w;
     liveTracks := liveTracks w; console := console w; requests := requests w |}.

Definition with_image (i : option string) (w : World) : World :=
  {| state := state w; image := i; analysis := analysis w; error := error w;
     videoRef := videoRef w; canvasRef := canvasRef w;
     liveTracks := liveTracks w; console := console w; requests := requests w |}.

Definition with_analysis (a : option Json.value) (w : World) : World :=
  {| state := state w; image := image w; analysis := a; error := error w;
     videoRef := videoRef w; canvasRef := canvasRef w;
     liveTracks := liveTracks w; console := console w; requests := requests w |}.

Definition with_error (e : option string) (w : World) : World :=
  {| state := state w; image := image w; analysis := analysis w; error := e;
     videoRef := videoRef w; canvasRef := canvasRef w;
     liveTracks := liveTracks w; console := console w; requests := requests w |}.

Definition with_videoRef (v : option HTMLVideoElement) (w : World) : World :=
  {| state := state w; image := image w; analysis := analysis w; error := error w;
     videoRef := v; canvasRef := canvasRef w;
     liveTracks := liveTracks w; console := console w; requests := requests w |}.

Definition with_canvasRef (c : option HTMLCanvasElement) (w : World) : World :=
  {| state := state w; image := image w; analysis := analysis w; error := error w;
     videoRef := videoRef w; canvasRef := c;
     liveTracks := liveTracks w; console := console w; requests := requests w |}.

Definition with_liveTracks (ts : list nat) (w : World) : World :=
  {| state := state w; image := image w; analysis := analysis w; error := error w;
     videoRef := videoRef w; canvasRef := canvasRef w;
     liveTracks := ts; console := console w; requests := requests w |}.

Definition with_console (c : list string) (w : World) : World :=
  {| state := state w; image := image w; analysis := analysis w; error := error w;
     videoRef := videoRef w; canvasRef := canvasRef w;
     liveTracks := liveTracks w; console := c; requests := requests w |}.

Definition with_requests (r : list GenerateContentRequest) (w : World) : World :=
  {| state := state w; image := image w; analysis := analysis w; error := error w;
     videoRef := videoRef w; canvasRef := canvasRef w;
     liveTracks := liveTracks w; console := console w; requests := r |}.

(** A [<video>] element as React mounts it. *)
Definition mountedVideo : HTMLVideoElement :=
  {| srcObject := None; videoWidth := 0; videoHeight := 0; currentFrame := None |}.

(** A [<canvas>] element as React mounts it (300 by 150, nothing drawn). *)
Definition mountedCanvas : HTMLCanvasElement :=
  {| width := 300; height := 150; drawn := None; context2d := true |}.

(** React commits the render of the current state: the [<video>] is in the
    tree exactly in the capturing state (so [videoRef.current] is set on
    entering it and null on leaving it), the [<canvas>] always. *)
Definition commit (w : World) : World :=
  with_canvasRef
    (match canvasRef w with Some c => Some c | None => Some mountedCanvas end)
    (with_videoRef
       (match state w with
        | AppState.capturing =>
            match videoRef w with
            | Some v => Some v
            | None => Some mountedVideo
            end
        | _ => None
        end) w).

(** The component before any event: first render of [useState('idle')],
    [useState(null)] three times. *)
Definition initial : World :=
  commit
    {| state := AppState.idle; image := None; analysis := None; error := None;
       videoRef := None; canvasRef := None;
       liveTracks := []; console := []; requests := [] |}.

(** The capturing state's video-active substate: a stream is attached to the
    viewfinder. *)
Definition video_active (w : World) : bool :=
  match videoRef w with
  | Some v => match srcObject v with Some _ => true | None => false end
  | None => false
  end.

(** A media stream is active: the viewfinder's stream has a live track. *)
Definition stream_active (w : World) : bool :=
  match videoRef w with
  | Some v =>
      match srcObject v with
      | Some stream =>
          existsb (fun t => existsb (Nat.eqb t) (liveTracks w)) (getTracks stream)
      | None => false
      end
  | None => false
  end.

(* ================================================================== *)
(** * Handlers as computations *)
(* ================================================================== *)

(** The outcome of running a piece of a handler: it returns or throws, in a
    world, having gone through the committed [frames] at its awaits. *)
Inductive Outcome (A : Type) : Type :=
| Ok (a : A) (w : World) (frames : list World)
| Throw (e : JsError) (w : World) (frames : list World).

Arguments Ok {A} a w frames.
Arguments Throw {A} e w frames.

Definition M (A : Type) : Type := World -> Outcome A.

Definition ret {A} (a : A) : M A := fun w => Ok a w [].

Definition throw {A} (e : JsError) : M A := fun w => Throw e w [].

Definition bind {A B} (m : M A) (k : A -> M B) : M B :=
  fun w =>
    match m w with
    | Ok a w1 fr1 =>
        match k a w1 with
        | Ok b w2 fr2 => Ok b w2 (fr1 ++ fr2)
        | Throw e w2 fr2 => Throw e w2 (fr1 ++ fr2)
        end
    | Throw e w1 fr1 => Throw e w1 fr1
    end.

(** [try { body } catch (err) { handler }]. *)
Definition try_catch {A} (body : M A) (handler : JsError -> M A) : M A :=
  fun w =>
    match body w with
    | Ok a w1 fr1 => Ok a w1 fr1
    | Throw e w1 fr1 =>
        match handler e w1 with
        | Ok a w2 fr2 => Ok a w2 (fr1 ++ fr2)
        | Throw e' w2 fr2 => Throw e' w2 (fr1 ++ fr2)
        end
    end.

Declare Scope js_scope.
Delimit Scope js_scope with js.

Notation "x <- m ;; k" := (bind m (fun x => k))
  (at level 61, m at next level, right associativity) : js_scope.
Notation "m ;; k" := (bind m (fun _ => k))
  (at level 61, right associativity) : js_scope.

Local Open Scope js_scope.

Definition read {A} (f : World -> A) : M A := fun w => Ok (f w) w [].

Definition modify (f : World -> World) : M unit := fun w => Ok tt (f w) [].

(** Control goes back to the event loop: React commits, the frame is shown. *)
Definition yield : M unit := fun w => let w' := commit w in Ok tt w' [w'].

(** [await p] for a promise that settles as [p]. *)
Definition await {A} (p : Settled A) : M A :=
  yield ;;
  match p with
  | Fulfilled a => ret a
  | Rejected e => throw e
  end.

(** [await f(...)] for an [async] function [f]: its body runs, then the caller
    resumes in a later turn with what it returned or threw. *)
Definition await_call {A} (body : M A) : M A :=
  try_catch (a <- body ;; yield ;; ret a) (fun e => yield ;; throw e).

(** The frames of a whole run, the one committed after it included. *)
Definition frames_of {A} (o : Outcome A) : list World :=
  match o with
  | Ok _ w fr | Throw _ w fr => fr ++ [commit w]
  end.

(** The committed world a run ends in. *)
Definition final {A} (o : Outcome A) : World :=
  match o with
  | Ok _ w _ | Throw _ w _ => commit w
  end.

Definition setState (s : AppState.t) : M unit := modify (with_state s).
Definition setImage (i : option string) : M unit := modify (with_image i).
Definition setAnalysis (a : option Json.value) : M unit := modify (with_analysis a).
Definition setError (e : option string) : M unit := modify (with_error e).

(** [console.error(label, err)]. *)
Definition console_error (label : string) (err : JsError) : M unit :=
  modify (fun w =>
    with_console
      (console w ++ [(label ++ " " ++ name err ++ ": " ++ message err)%string]) w).

(* ================================================================== *)
(** * The classification client ([./services/geminiService]) *)
(* ================================================================== *)

Module geminiService.

Definition model_name : string := "gemini-3-flash-preview".

Definition prompt : string :=
  "Analyze this image of waste and identify the primary material. 
  Determine if it is glass, plastic, paper, or cardboard. 
  Provide a percentage confidence for each category (summing to 1 or 100).
  Also provide a short, helpful recycling tip for this specific item.".

Definition confidence : Schema := TNumber "Confidence percentage (0-100)".

Definition responseSchema : Schema :=
  TObject
    [ ("mainMaterial",
       TString "The primary detected material (e.g., 'Plastic', 'Glass', 'Paper', 'Cardboard')");
      ("confidences",
       TObject
         [ ("glass", confidence);
           ("plastic", confidence);
           ("paper", confidence);
           ("cardboard", confidence);
           ("other", confidence) ]
         [ "glass"; "plastic"; "paper"; "cardboard"; "other" ]);
      ("recyclingTip",
       TString "A short, actionable tip on how to recycle this item correctly.");
      ("isRecyclable",
       TBoolean "Whether the identified material is typically recyclable.") ]
    [ "mainMaterial"; "confidences"; "recyclingTip"; "isRecyclable" ].

(** [ai.models.generateContent(request)]: the request leaves, and the
    promise settles as the service decides ([service]). *)
Definition generateContent (request : GenerateContentRequest)
    (service : Settled GenerateContentResponse) : M GenerateContentResponse :=
  modify (fun w => with_requests (requests w ++ [request]) w) ;;
  await service.

Definition syntax_error : JsError :=
  {| name := "SyntaxError"; message := "Unexpected token in JSON" |}.

(** [JSON.parse(text)], throwing a [SyntaxError] on text that is not JSON. *)
Definition JSON_parse (text : string) : M Json.value :=
  match Json.parse text with
  | Some v => ret v
  | None => throw syntax_error
  end.

(** The argument of [generateContent]: the prompt and the image, whose
    data is what follows the first comma of the data URL. *)
Definition request (base64Image : string) : GenerateContentRequest :=
  {| model := model_name;
     contents_text := prompt;
     inlineData_mimeType := "image/jpeg";
     inlineData_data := nth_error (JsString.split "," base64Image) 1;
     config_responseMimeType := "application/json";
     config_responseSchema := responseSchema |}.

Definition no_response_text : JsError :=
  {| name := "Error"; message := "No response text from AI" |}.

(** [export async function analyzeWaste(base64Image: string): Promise<WasteAnalysis>]. *)
Definition analyzeWaste (base64Image : string)
    (service : Settled GenerateContentResponse) : M Json.value :=
  try_catch
    (result <- generateContent (request base64Image) service ;;
     let text := response_text result in
     if negb (JsString.truthy_opt text) then throw no_response_text
     else
       match text with
       | Some text => JSON_parse text
       | None => throw no_response_text
       end)
    (fun error => console_error "Gemini Analysis Error:" error ;; throw error).

End geminiService.

(* ================================================================== *)
(** * The component [App]: its handlers *)
(* ================================================================== *)

(** The constraints [startCamera] asks for. *)
Record MediaStreamConstraints : Type := {
  facingMode : string;
  ideal_width : nat;
  ideal_height : nat
}.

(** [navigator.mediaDevices.getUserMedia(constraints)]: the promise settles as
    the user and the device decide ([granted]); the tracks of a granted
    stream are live. *)
Definition getUserMedia (constraints : MediaStreamConstraints)
    (granted : Settled MediaStream) : M MediaStream :=
  stream <- await granted ;;
  modify (fun w => with_liveTracks (liveTracks w ++ getTracks stream) w) ;;
  ret stream.

(** [track.stop()]. *)
Definition track_stop (track : nat) : M unit :=
  modify (fun w =>
    with_liveTracks (filter (fun t => negb (Nat.eqb t track)) (liveTracks w)) w).

(** [xs.forEach(f)]. *)
Fixpoint forEach {A} (xs : list A) (f : A -> M unit) : M unit :=
  match xs with
  | [] => ret tt
  | x :: rest => f x ;; forEach rest f
  end.

Definition set_srcObject (stream : option MediaStream) (v : HTMLVideoElement)
  : HTMLVideoElement :=
  {| srcObject := stream; videoWidth := videoWidth v;
     videoHeight := videoHeight v; currentFrame := currentFrame v |}.

(** [const startCamera = async () => { try { ... } catch (err) { ... } }]:
    the state is set to capturing before the camera is asked for. *)
Definition startCamera (granted : Settled MediaStream) : M unit :=
  try_catch
    (setState AppState.capturing ;;
     stream <- getUserMedia
                 {| facingMode := "environment";
                    ideal_width := 1280; ideal_height := 720 |}
                 granted ;;
     current <- read videoRef ;;
     match current with
     | Some video =>
         modify (with_videoRef (Some (set_srcObject (Some stream) video)))
     | None => ret tt
     end)
    (fun err =>
       console_error "Camera error:" err ;;
       setError (Some "Unable to access camera. Please check permissions.") ;;
       setState AppState.error).

(** [const stopCamera = () => { ... }]: stops the tracks of the stream on the
    viewfinder, when there is a viewfinder and a stream on it. *)
Definition stopCamera : M unit :=
  current <- read videoRef ;;
  match current with
  | Some video =>
      match srcObject video with
      | Some stream => forEach (getTracks stream) track_stop
      | None => ret tt
      end
  | None => ret tt
  end.

(** [const processAnalysis = async (base64: string) => { ... }]. *)
Definition processAnalysis (base64 : string)
    (service : Settled GenerateContentResponse) : M unit :=
  setState AppState.analyzing ;;
  setError None ;;
  try_catch
    (result <- await_call (geminiService.analyzeWaste base64 service) ;;
     setAnalysis (Some result) ;;
     setState AppState.result)
    (fun err =>
       setError (Some "AI analysis failed. Please try a different photo.") ;;
       setState AppState.error).

(** [const reset = () => { ... }]. *)
Definition reset : M unit :=
  stopCamera ;;
  setImage None ;;
  setAnalysis None ;;
  setError None ;;
  setState AppState.idle.

(** [reader.readAsDataURL(file)]: the data URL of the file's bytes. *)
Definition readAsDataURL (file : File) : string :=
  ("data:"
   ++ (if JsString.truthy (type file) then type file else "application/octet-stream")
   ++ ";base64," ++ Base64.encode (contents file))%string.

(** The [onloadend] callback runs in a later turn, with the reader's result.
    The read is one that succeeds: the result is the data URL.  (After a
    failed read the result is null: [read_failed], in the event loop.) *)
Definition onloadend (result : string) (callback : string -> M unit) : M unit :=
  yield ;; callback result.

(** [const handleFileUpload = (e) => { ... }]: the first selected file, if
    there is one, is read as a data URL, stored and analysed. *)
Definition handleFileUpload (e : ChangeEvent)
    (service : Settled GenerateContentResponse) : M unit :=
  let file :=
    match files e with
    | Some selected => nth_error selected 0
    | None => None
    end in
  match file with
  | Some file =>
      onloadend (readAsDataURL file)
        (fun dataUrl =>
           setImage (Some dataUrl) ;;
           processAnalysis dataUrl service)
  | None => ret tt
  end.

Section Canvas.

(** The browser's image encoder: the bytes of the canvas in the given
    format at the given quality. *)
Variable encode_image : string -> Q -> HTMLCanvasElement -> list byte.

Definition resize (w h : nat) (c : HTMLCanvasElement) : HTMLCanvasElement :=
  {| width := w; height := h; drawn := None; context2d := context2d c |}.

(** [ctx.drawImage(video, 0, 0, w, h)] on a canvas of that size: the
    video's frame, if it has one, fills the canvas. *)
Definition drawImage (video : HTMLVideoElement) (c : HTMLCanvasElement)
  : HTMLCanvasElement :=
  {| width := width c; height := height c;
     drawn := match currentFrame video with
              | Some frame => Some frame
              | None => drawn c
              end;
     context2d := context2d c |}.

(** [canvas.toDataURL(type, quality)]; a canvas without pixels gives
    [data:,]. *)
Definition toDataURL (type : string) (quality : Q) (c : HTMLCanvasElement)
  : string :=
  if (Nat.eqb (width c) 0 || Nat.eqb (height c) 0)%bool then "data:,"
  else ("data:" ++ type ++ ";base64,"
        ++ Base64.encode (encode_image type quality c))%string.

(** [const capturePhoto = () => { ... }]. *)
Definition capturePhoto (service : Settled GenerateContentResponse) : M unit :=
  video_current <- read videoRef ;;
  canvas_current <- read canvasRef ;;
  match video_current, canvas_current with
  | Some video, Some canvas =>
      let vWidth := videoWidth video in
      let vHeight := videoHeight video in
      let canvas := resize vWidth vHeight canvas in
      modify (with_canvasRef (Some canvas)) ;;
      if context2d canvas then
        let canvas := drawImage video canvas in
        modify (with_canvasRef (Some canvas)) ;;
        let dataUrl := toDataURL "image/jpeg" (85 # 100) canvas in
        setImage (Some dataUrl) ;;
        stopCamera ;;
        processAnalysis dataUrl service
      else ret tt
  | _, _ => ret tt
  end.

End Canvas.

(* ================================================================== *)
(** * The component [App]: what it renders *)
(* ================================================================== *)

Inductive Handler : Type :=
| h_startCamera
| h_openFilePicker
| h_handleFileUpload
| h_capturePhoto
| h_reset.

Inductive Icon : Type := CheckIcon | XIcon.

(** The idle screen: two buttons and the hidden file input. *)
Record IdleView : Type := {
  openCamera_onClick : Handler;
  uploadGallery_onClick : Handler;
  fileInput_onChange : Handler
}.

(** The viewfinder: the [<video>], a cancel button and the shutter. *)
Record CameraView : Type := {
  cancel_onClick : Handler;
  shutter_onClick : Handler
}.

(** One entry of [Object.entries(analysis.confidences)]. *)
Record ConfidenceRow : Type := {
  row_key : string;
  label_class : string;
  percent_text : string;
  bar_class : string;
  bar_width : Q
}.

Record ResultCard : Type := {
  badge_class : string;
  badge_icon : Icon;
  primary_detection : string;
  rows : list ConfidenceRow;
  recycling_advice : string;
  scanNew_onClick : Handler
}.

Record ErrorCard : Type := {
  error_text : option string;
  tryAgain_onClick : Handler
}.

(** What stands where the result card goes: nothing, the card, or
    [Untyped], for a truthy value that is not a [WasteAnalysis].  With such
    a value the JSX may throw while rendering (React then unmounts the
    whole tree) or draw a card the type does not describe: a view with
    [Untyped] in it stands for no rendering in particular. *)
Inductive CardSlot : Type :=
| NoCard
| Card (c : ResultCard)
| Untyped.

Record ScanView : Type := {
  img_src : string;
  analyzing_overlay : bool;
  result_card : CardSlot;
  error_card : option ErrorCard
}.

(** The three conditional blocks of [<main>]. *)
Record MainView : Type := {
  idle_view : option IdleView;
  camera_view : option CameraView;
  scan_view : option ScanView
}.

(** [Math.round(x)]: the nearest integer, halves going up.  The argument
    is the exact rational of the number; JavaScript rounds the double
    nearest to it. *)
Definition Math_round (x : Q) : Z := Qfloor (x + (1 # 2)).

(** An integer as JSX prints it. *)
Definition string_of_Z (z : Z) : string := NilZero.string_of_int (Z.to_int z).

Definition label_highlight : string := "text-emerald-600".

Definition bar_base : string :=
  "h-full transition-all duration-1000 ease-out rounded-full ".

Definition bar_highlight : string :=
  "bg-gradient-to-r from-emerald-400 to-emerald-600 shadow-[0_0_10px_rgba(16,185,129,0.3)]".

Definition bar_plain : string := "bg-slate-200".

(** The body of the [map] over the confidence entries. *)
Definition confidenceRow (mainMaterial : string) (entry : string * Q)
  : ConfidenceRow :=
  let '(key, value) := entry in
  let matched :=
    String.eqb (JsString.toLowerCase key) (JsString.toLowerCase mainMaterial) in
  {| row_key := key;
     label_class := if matched then label_highlight else EmptyString;
     percent_text := (string_of_Z (Math_round value) ++ "%")%string;
     bar_class := (bar_base ++ (if matched then bar_highlight else bar_plain))%string;
     bar_width := value |}.

(** [Object.entries(o)] for an object whose values are all numbers. *)
Fixpoint number_entries (members : list (string * Json.value))
  : option (list (string * Q)) :=
  match members with
  | [] => Some []
  | (k, Json.Number q) :: rest =>
      match number_entries rest with
      | Some es => Some ((k, q) :: es)
      | None => None
      end
  | _ => None
  end.

Definition resultCard (analysis : Json.value) : CardSlot :=
  match Json.prop "isRecyclable" analysis, Json.prop "mainMaterial" analysis,
        Json.prop "confidences" analysis, Json.prop "recyclingTip" analysis with
  | Some (Json.Bool isRecyclable), Some (Json.Str mainMaterial),
    Some (Json.Obj confidences), Some (Json.Str recyclingTip) =>
      match number_entries confidences with
      | Some entries =>
          Card
            {| badge_class :=
                 ("p-4 rounded-full shadow-sm "
                  ++ (if isRecyclable then "bg-emerald-100 text-emerald-600"
                      else "bg-rose-100 text-rose-600"))%string;
               badge_icon := if isRecyclable then CheckIcon else XIcon;
               primary_detection := mainMaterial;
               rows := map (confidenceRow mainMaterial) entries;
               recycling_advice := recyclingTip;
               scanNew_onClick := h_reset |}
      | None => Untyped
      end
  | _, _, _, _ => Untyped
  end.

(** Truthiness of a parsed value. *)
Definition truthy_value (v : Json.value) : bool :=
  match v with
  | Json.Null => false
  | Json.Bool b => b
  | Json.Number q => negb (Qeq_bool q 0)
  | Json.Str s => JsString.truthy s
  | Json.Arr _ | Json.Obj _ => true
  end.

(** The [<main>] of the component, as a function of its state.  In the
    result state with a truthy analysis that is not a [WasteAnalysis], the
    card is [Untyped] and the view is not that of the component (see
    [CardSlot]). *)
Definition render (w : World) : MainView :=
  {| idle_view :=
       match state w with
       | AppState.idle =>
           Some {| openCamera_onClick := h_startCamera;
                   uploadGallery_onClick := h_openFilePicker;
                   fileInput_onChange := h_handleFileUpload |}
       | _ => None
       end;
     camera_view :=
       match state w with
       | AppState.capturing =>
           Some {| cancel_onClick := h_reset; shutter_onClick := h_capturePhoto |}
       | _ => None
       end;
     scan_view :=
       if (AppState.eqb (state w) AppState.analyzing
           || AppState.eqb (state w) AppState.result
           || AppState.eqb (state w) AppState.error)%bool
       then
         match image w with
         | Some src =>
             if JsString.truthy src then
               Some
                 {| img_src := src;
                    analyzing_overlay := AppState.eqb (state w) AppState.analyzing;
                    result_card :=
                      if AppState.eqb (state w) AppState.result then
                        match analysis w with
                        | Some a => if truthy_value a then resultCard a else NoCard
                        | None => NoCard
                        end
                      else NoCard;
                    error_card :=
                      if AppState.eqb (state w) AppState.error then
                        Some {| error_text := error w; tryAgain_onClick := h_reset |}
                      else None |}
             else None
         | None => None
         end
       else None |}.

(** The handlers the rendered controls can start. *)
Definition actions (v : MainView) : list Handler :=
  match idle_view v with
  | Some i => [openCamera_onClick i; uploadGallery_onClick i; fileInput_onChange i]
  | None => []
  end
  ++ match camera_view v with
     | Some c => [cancel_onClick c; shutter_onClick c]
     | None => []
     end
  ++ match scan_view v with
     | Some s =>
         match result_card s with
         | Card c => [scanNew_onClick c]
         | _ => []
         end
         ++ match error_card s with
            | Some e => [tryAgain_onClick e]
            | None => []
            end
     | None => []
     end.

(** What the user does with the rendered controls.  Each event carries how
    the promises its handler awaits will settle. *)
Inductive Event : Type :=
| click_openCamera (granted : Settled MediaStream)
| click_uploadGallery
| change_fileInput (e : ChangeEvent) (service : Settled GenerateContentResponse)
| click_shutter (service : Settled GenerateContentResponse)
| click_reset.

Definition handler_of (ev : Event) : Handler :=
  match ev with
  | click_openCamera _ => h_startCamera
  | click_uploadGallery => h_openFilePicker
  | change_fileInput _ _ => h_handleFileUpload
  | click_shutter _ => h_capturePhoto
  | click_reset => h_reset
  end.

(** The handler an event runs.  [fileInputRef.current?.click()] opens the
    file picker and touches nothing of the component. *)
Definition handle
    (encode_image : string -> Q -> HTMLCanvasElement -> list byte)
    (ev : Event) : M unit :=
  match ev with
  | click_openCamera granted => startCamera granted
  | click_uploadGallery => ret tt
  | change_fileInput e service => handleFileUpload e service
  | click_shutter service => capturePhoto encode_image service
  | click_reset => reset
  end.

(* ================================================================== *)
(** * Vocabulary of the statements *)
(* ================================================================== *)

(** The run threw (for an [async] function: its promise rejected). *)
Definition threw {A} (o : Outcome A) : bool :=
  match o with Ok _ _ _ => false | Throw _ _ _ => true end.

(** What the run returned. *)
Definition returned {A} (o : Outcome A) : option A :=
  match o with Ok a _ _ => Some a | Throw _ _ _ => None end.

(** The world the run ends in, before React commits it. *)
Definition world_of {A} (o : Outcome A) : World :=
  match o with Ok _ w _ | Throw _ w _ => w end.

(** The frames committed at the awaits of the run. *)
Definition awaits {A} (o : Outcome A) : list World :=
  match o with Ok _ _ fr | Throw _ _ fr => fr end.

(** The network call failed: the promise of [generateContent] rejected. *)
Definition network_failed (service : Settled GenerateContentResponse) : bool :=
  match service with Rejected _ => true | Fulfilled _ => false end.

(** The service answered with no usable payload: no text, or an empty one. *)
Definition no_usable_payload (service : Settled GenerateContentResponse) : bool :=
  match service with
  | Fulfilled r => negb (JsString.truthy_opt (response_text r))
  | Rejected _ => false
  end.

(** The payload is text that [JSON.parse] rejects. *)
Definition not_json (service : Settled GenerateContentResponse) : bool :=
  match service with
  | Fulfilled r =>
      match response_text r with
      | Some text =>
          JsString.truthy text
          && match Json.parse text with Some _ => false | None => true end
      | None => false
      end
  | Rejected _ => false
  end.

(** The payload cannot be parsed into the [WasteAnalysis] schema: it is not
    JSON, or it is JSON of another shape. *)
Definition not_a_WasteAnalysis (service : Settled GenerateContentResponse) : bool :=
  match service with
  | Fulfilled r =>
      match response_text r with
      | Some text =>
          JsString.truthy text
          && match Json.parse text with
             | Some v => negb (WasteAnalysis.has_type v)
             | None => true
             end
      | None => false
      end
  | Rejected _ => false
  end.

(** The classification call throws or rejects. *)
Definition classification_fails (service : Settled GenerateContentResponse) : bool :=
  network_failed service || no_usable_payload service || not_json service.

(** The tracks still live once every track of [stopped] has been stopped. *)
Definition stop_all (stopped live : list nat) : list nat :=
  fold_left (fun l track => filter (fun t => negb (Nat.eqb t track)) l) stopped live.

(** The live tracks that [stopCamera] leaves. *)
Definition after_stop (w : World) : list nat :=
  match videoRef w with
  | Some video =>
      match srcObject video with
      | Some stream => stop_all (getTracks stream) (liveTracks w)
      | None => liveTracks w
      end
  | None => liveTracks w
  end.

(** The viewfinder shows a frame. *)
Definition frame_available (w : World) : bool :=
  match videoRef w with
  | Some video =>
      match currentFrame video with Some _ => true | None => false end
  | None => false
  end.

(** The characters of an RFC 6838 media type: letters, digits, [!#$&-^_.+]
    and the slash between type and subtype. *)
Definition mime_char (c : ascii) : bool :=
  let n := nat_of_ascii c in
  ((97 <=? n)%nat && (n <=? 122)%nat)
  || ((65 <=? n)%nat && (n <=? 90)%nat)
  || ((48 <=? n)%nat && (n <=? 57)%nat)
  || existsb (Ascii.eqb c)
       ["!"; "#"; "$"; "&"; "-"; "^"; "_"; "."; "+"; "/"]%char.

Fixpoint all_chars (p : ascii -> bool) (s : string) : bool :=
  match s with
  | EmptyString => true
  | String c rest => p c && all_chars p rest
  end.

(** An image file: its media type is [image/...]. *)
Definition image_file (f : File) : bool :=
  JsString.startsWith "image/" (type f) && all_chars mime_char (type f).

(** The bytes a base64 data URL stands for: what follows its first comma,
    decoded. *)
Definition decodeDataURL (url : string) : option (list byte) :=
  match nth_error (JsString.split "," url) 1 with
  | Some body => Base64.decode body
  | None => None
  end.

(** The analysis of the example: plastic at 70 percent. *)
Definition plastic_analysis (recyclingTip : string) (isRecyclable : bool)
  : Json.value :=
  Json.Obj
    [ ("mainMaterial", Json.Str "Plastic");
      ("confidences",
       Json.Obj
         [ ("glass", Json.Number 10);
           ("plastic", Json.Number 70);
           ("paper", Json.Number 10);
           ("cardboard", Json.Number 5);
           ("other", Json.Number 5) ]);
      ("recyclingTip", Json.Str recyclingTip);
      ("isRecyclable", Json.Bool isRecyclable) ].

(** A bar carries the distinguished styling. *)
Definition highlighted (r : ConfidenceRow) : bool :=
  String.eqb (bar_class r) (bar_base ++ bar_highlight)%string
  && String.eqb (label_class r) label_highlight.

(** A bar carries the plain styling. *)
Definition plain (r : ConfidenceRow) : bool :=
  String.eqb (bar_class r) (bar_base ++ bar_plain)%string
  && String.eqb (label_class r) EmptyString.

(** An encoder for the examples: it answers with no bytes. *)
Definition silent_encoder (type : string) (quality : Q) (c : HTMLCanvasElement)
  : list byte := [].

(** Text with every apostrophe turned into a double quote (to write JSON
    texts in the examples). *)
Fixpoint quoted (s : string) : string :=
  match s with
  | EmptyString => EmptyString
  | String c rest =>
      String (if Ascii.eqb c "'" then Json.dquote else c) (quoted rest)
  end.

(** What [analyzeWaste] makes of the way the service settles: the error it
    throws or the value it returns. *)
Definition answer (service : Settled GenerateContentResponse)
  : JsError + Json.value :=
  match service with
  | Rejected e => inl e
  | Fulfilled r =>
      match response_text r with
      | Some text =>
          if JsString.truthy text then
            match Json.parse text with
            | Some v => inr v
            | None => inl geminiService.syntax_error
            end
          else inl geminiService.no_response_text
      | None => inl geminiService.no_response_text
      end
  end.

(** The world once the request for [base64Image] has left and React has
    committed at the await. *)
Definition sent (base64Image : string) (w : World) : World :=
  commit (with_requests (requests w ++ [geminiService.request base64Image]) w).

(** The world once [analyzeWaste] has logged the error it rethrows. *)
Definition logged (e : JsError) (w : World) : World :=
  with_console
    (console w
     ++ [("Gemini Analysis Error:" ++ " " ++ name e ++ ": " ++ message e)%string])
    w.

(** The message [processAnalysis] stores when the classification fails. *)
Definition analysis_failed : string :=
  "AI analysis failed. Please try a different photo.".

(** The world in which [processAnalysis] awaits the classification of
    [base64]: analyzing, error cleared, request sent. *)
Definition analyzing_world (base64 : string) (w : World) : World :=
  sent base64 (with_error None (with_state AppState.analyzing w)).

(** The canvas after [capturePhoto] has sized it to the video and drawn the
    video on it. *)
Definition snapshot (video : HTMLVideoElement) (canvas : HTMLCanvasElement)
  : HTMLCanvasElement :=
  drawImage video (resize (videoWidth video) (videoHeight video) canvas).

(** The world in which [capturePhoto] calls [processAnalysis]: the snapshot
    taken, its data URL stored, the camera stopped. *)
Definition captured (dataUrl : string) (shot : HTMLCanvasElement) (w : World)
  : World :=
  with_liveTracks (after_stop w)
    (with_image (Some dataUrl) (with_canvasRef (Some shot) w)).

(** The capturing screen while the permission prompt is still open: the
    viewfinder is mounted, no stream is attached and it has no frame. *)
Definition waiting_for_camera : World :=
  commit (with_state AppState.capturing initial).

(** The capturing screen with a camera delivering a 2 by 1 picture on its
    two tracks. *)
Definition filming : World :=
  with_liveTracks [1; 2]%nat
    (with_videoRef
       (Some {| srcObject := Some {| getTracks := [1; 2]%nat |};
                videoWidth := 2; videoHeight := 1;
                currentFrame := Some ["M"; "a"; "n"; "M"; "a"; "n"]%byte |})
       waiting_for_camera).

(* ================================================================== *)
(** * Tactics *)
(* ================================================================== *)

(** Sextet and octet arithmetic: division and remainder by constants. *)
Ltac euclid :=
  unfold Base64.sextet1, Base64.sextet2, Base64.sextet3, Base64.sextet4,
    Base64.octet1, Base64.octet2, Base64.octet3;
  zify; Z.to_euclidean_division_equations; lia.

(** Runs the monad's operations on the goal, leaving the world's
    components and the builtins as they are. *)
Ltac run_js :=
  cbv beta iota zeta
    delta [try_catch bind ret throw read modify yield await await_call
           setState setImage setAnalysis setError console_error
           geminiService.generateContent response_text
           JsString.truthy_opt JsString.truthy negb];
  cbn [app].

(** Closes a goal about a state the controller is not in. *)
Ltac other_state := intros; congruence.

(* ================================================================== *)
(** * The event loop: handlers cut at their awaits *)
(* ================================================================== *)

(** An [async] handler runs up to its [await] in the turn of the event
    that starts it, and resumes in the turn in which the awaited
    promise settles; user events may take turns in between.  The pieces
    below are the handlers of the component cut at their awaits. *)

(** The value of a promise that has settled, or its error thrown. *)
Definition settled {A} (p : Settled A) : M A :=
  match p with
  | Fulfilled a => ret a
  | Rejected e => throw e
  end.

(** [startCamera] up to [await navigator.mediaDevices.getUserMedia(...)]. *)
Definition startCamera_begin : M unit := setState AppState.capturing.

(** [startCamera] from the settlement of [getUserMedia] on: the rest of
    the [try] block under its [catch]. *)
Definition startCamera_settled (granted : Settled MediaStream) : M unit :=
  try_catch
    (stream <- settled granted ;;
     modify (fun w => with_liveTracks (liveTracks w ++ getTracks stream) w) ;;
     current <- read videoRef ;;
     match current with
     | Some video =>
         modify (with_videoRef (Some (set_srcObject (Some stream) video)))
     | None => ret tt
     end)
    (fun err =>
       console_error "Camera error:" err ;;
       setError (Some "Unable to access camera. Please check permissions.") ;;
       setState AppState.error).

(** [processAnalysis] up to its [await]: the two state updates, and
    [analyzeWaste] up to its own [await], where the request leaves. *)
Definition processAnalysis_begin (base64 : string) : M unit :=
  setState AppState.analyzing ;;
  setError None ;;
  modify (fun w => with_requests (requests w ++ [geminiService.request base64]) w).

(** [analyzeWaste] from the settlement of [generateContent] on. *)
Definition analyzeWaste_settled (service : Settled GenerateContentResponse)
  : M Json.value :=
  try_catch
    (result <- settled service ;;
     let text := response_text result in
     if negb (JsString.truthy_opt text) then throw geminiService.no_response_text
     else
       match text with
       | Some text => geminiService.JSON_parse text
       | None => throw geminiService.no_response_text
       end)
    (fun error => console_error "Gemini Analysis Error:" error ;; throw error).

(** [processAnalysis] from the settlement of [analyzeWaste] on. *)
Definition processAnalysis_settled (service : Settled GenerateContentResponse)
  : M unit :=
  try_catch
    (result <- analyzeWaste_settled service ;;
     setAnalysis (Some result) ;;
     setState AppState.result)
    (fun err =>
       setError (Some "AI analysis failed. Please try a different photo.") ;;
       setState AppState.error).

(** The [onloadend] callback of [handleFileUpload], up to the [await] of
    [processAnalysis]; it returns the data URL under analysis. *)
Definition read_ended (file : File) : M string :=
  let dataUrl := readAsDataURL file in
  setImage (Some dataUrl) ;;
  processAnalysis_begin dataUrl ;;
  ret dataUrl.

(** [handleFileUpload] itself: the file it hands to the reader, if any. *)
Definition selected_file (e : ChangeEvent) : option File :=
  match files e with
  | Some selected => nth_error selected 0
  | None => None
  end.

(** [capturePhoto] up to the [await] of [processAnalysis]; it returns the
    data URL under analysis, or [None] when a guard stopped it. *)
Definition capturePhoto_begin
    (encode_image : string -> Q -> HTMLCanvasElement -> list byte)
  : M (option string) :=
  video_current <- read videoRef ;;
  canvas_current <- read canvasRef ;;
  match video_current, canvas_current with
  | Some video, Some canvas =>
      let vWidth := videoWidth video in
      let vHeight := videoHeight video in
      let canvas := resize vWidth vHeight canvas in
      modify (with_canvasRef (Some canvas)) ;;
      if context2d canvas then
        let canvas := drawImage video canvas in
        modify (with_canvasRef (Some canvas)) ;;
        let dataUrl := toDataURL encode_image "image/jpeg" (85 # 100) canvas in
        setImage (Some dataUrl) ;;
        stopCamera ;;
        processAnalysis_begin dataUrl ;;
        ret (Some dataUrl)
      else ret None
  | _, _ => ret None
  end.

(** The [TypeError] of [base64Image.split(',')] when [base64Image] is
    null (the message is the engine's). *)
Definition null_has_no_split : JsError :=
  {| name := "TypeError";
     message := "Cannot read properties of null (reading 'split')" |}.

(** [analyzeWaste(null)]: building the argument of [generateContent]
    throws inside the [try], before any request leaves; the [catch] logs
    the error and rethrows it. *)
Definition analyzeWaste_of_null : M Json.value :=
  try_catch
    (throw null_has_no_split)
    (fun error => console_error "Gemini Analysis Error:" error ;; throw error).

(** The [onloadend] callback of [handleFileUpload] when the read has
    failed: [reader.result] is null, so null is stored as the image and
    handed to [processAnalysis].  [analyzeWaste] rejects without waiting
    for anything, and the [catch] of [processAnalysis] runs before any
    other turn can be taken: the whole of it is one turn. *)
Definition read_failed : M unit :=
  setImage None ;;
  setState AppState.analyzing ;;
  setError None ;;
  try_catch
    (result <- analyzeWaste_of_null ;;
     setAnalysis (Some result) ;;
     setState AppState.result)
    (fun err =>
       setError (Some "AI analysis failed. Please try a different photo.") ;;
       setState AppState.error).

(** The [<video>] element once the stream it plays has delivered a frame:
    the browser gives it the size of the picture and the picture. *)
Definition playing (width height : nat) (pixels : Bitmap)
    (video : HTMLVideoElement) : HTMLVideoElement :=
  {| srcObject := srcObject video;
     videoWidth := width;
     videoHeight := height;
     currentFrame := Some pixels |}.

(** A frame reaches the viewfinder ([autoPlay]). *)
Definition frame_delivered (width height : nat) (pixels : Bitmap) : M unit :=
  modify
    (fun w =>
       with_videoRef (option_map (playing width height pixels) (videoRef w)) w).

(** What the component is waiting for. *)
Inductive Task : Type :=
| awaiting_camera
| reading (file : File)
| classifying (base64 : string).

Fixpoint bytes_eqb (a b : list byte) : bool :=
  match a, b with
  | [], [] => true
  | x :: a', y :: b' => Byte.eqb x y && bytes_eqb a' b'
  | _, _ => false
  end.

Definition File_eqb (f g : File) : bool :=
  String.eqb (type f) (type g) && bytes_eqb (contents f) (contents g).

Definition Task_eqb (s t : Task) : bool :=
  match s, t with
  | awaiting_camera, awaiting_camera => true
  | reading f, reading g => File_eqb f g
  | classifying a, classifying b => String.eqb a b
  | _, _ => false
  end.

Definition Handler_eqb (g h : Handler) : bool :=
  match g, h with
  | h_startCamera, h_startCamera
  | h_openFilePicker, h_openFilePicker
  | h_handleFileUpload, h_handleFileUpload
  | h_capturePhoto, h_capturePhoto
  | h_reset, h_reset => true
  | _, _ => false
  end.

(** The component between two turns: the committed world and the tasks
    it waits for. *)
Record Loop : Type := { now : World; waiting : list Task }.

(** One turn of the event loop: the user uses a rendered control ([e] is
    the change event, for the file input), a task settles (a read may end
    with the data URL of the file or fail), or the camera delivers a frame
    to the viewfinder. *)
Inductive Turn : Type :=
| press (h : Handler) (e : ChangeEvent)
| camera_settles (granted : Settled MediaStream)
| read_ends (file : File)
| read_fails (file : File)
| classification_settles (base64 : string)
    (service : Settled GenerateContentResponse)
| frame_arrives (width height : nat) (pixels : Bitmap).

(** The first occurrence of [t] taken out of [ts]. *)
Fixpoint settle_task (t : Task) (ts : list Task) : list Task :=
  match ts with
  | [] => []
  | s :: rest => if Task_eqb t s then rest else s :: settle_task t rest
  end.

(** The control whose handler is [h] is on screen. *)
Definition offered (h : Handler) (w : World) : bool :=
  existsb (Handler_eqb h) (actions (render w)).

(** The loop after a piece of a handler has run: React commits its world. *)
Definition after {A} (o : Outcome A) (tasks : list Task) : Loop :=
  {| now := commit (world_of o); waiting := tasks |}.

(** A turn, when it can be taken: a control must be on screen to be
    used, a task must be waiting to settle, and a frame comes from a live
    track of the stream on the viewfinder. *)
Definition turn
    (encode_image : string -> Q -> HTMLCanvasElement -> list byte)
    (t : Turn) (l : Loop) : option Loop :=
  match t with
  | press h e =>
      if offered h (now l) then
        match h with
        | h_startCamera =>
            Some (after (startCamera_begin (now l))
                    (waiting l ++ [awaiting_camera]))
        | h_openFilePicker => Some l
        | h_handleFileUpload =>
            match selected_file e with
            | Some file => Some (after (ret tt (now l)) (waiting l ++ [reading file]))
            | None => Some (after (ret tt (now l)) (waiting l))
            end
        | h_capturePhoto =>
            let o := capturePhoto_begin encode_image (now l) in
            match returned o with
            | Some (Some dataUrl) =>
                Some (after o (waiting l ++ [classifying dataUrl]))
            | _ => Some (after o (waiting l))
            end
        | h_reset => Some (after (reset (now l)) (waiting l))
        end
      else None
  | camera_settles granted =>
      if existsb (Task_eqb awaiting_camera) (waiting l) then
        Some (after (startCamera_settled granted (now l))
                (settle_task awaiting_camera (waiting l)))
      else None
  | read_ends file =>
      if existsb (Task_eqb (reading file)) (waiting l) then
        Some (after (read_ended file (now l))
                (settle_task (reading file) (waiting l)
                 ++ [classifying (readAsDataURL file)]))
      else None
  | read_fails file =>
      if existsb (Task_eqb (reading file)) (waiting l) then
        Some (after (read_failed (now l))
                (settle_task (reading file) (waiting l)))
      else None
  | classification_settles base64 service =>
      if existsb (Task_eqb (classifying base64)) (waiting l) then
        Some (after (processAnalysis_settled service (now l))
                (settle_task (classifying base64) (waiting l)))
      else None
  | frame_arrives width height pixels =>
      if stream_active (now l) then
        Some (after (frame_delivered width height pixels (now l)) (waiting l))
      else None
  end.

(** Turns taken one after the other. *)
Fixpoint turns
    (encode_image : string -> Q -> HTMLCanvasElement -> list byte)
    (ts : list Turn) (l : Loop) : option Loop :=
  match ts with
  | [] => Some l
  | t :: rest =>
      match turn encode_image t l with
      | Some l' => turns encode_image rest l'
      | None => None
      end
  end.

(** The component once mounted: nothing waited for. *)
Definition start : Loop := {| now := initial; waiting := [] |}.

(** What the loop can come to, whatever the order of the turns. *)
Inductive reachable
    (encode_image : string -> Q -> HTMLCanvasElement -> list byte)
  : Loop -> Prop :=
| reachable_start : reachable encode_image start
| reachable_turn (l l' : Loop) (t : Turn) :
    reachable encode_image l ->
    turn encode_image t l = Some l' ->
    reachable encode_image l'.

(** The turns of an event whose awaited operations settle at once, with
    no other turn in between. *)
Definition turns_of
    (encode_image : string -> Q -> HTMLCanvasElement -> list byte)
    (ev : Event) (w : World) : list Turn :=
  match ev with
  | click_openCamera granted =>
      [press h_startCamera {| files := None |}; camera_settles granted]
  | click_uploadGallery => [press h_openFilePicker {| files := None |}]
  | change_fileInput e service =>
      match selected_file e with
      | Some file =>
          [press h_handleFileUpload e; read_ends file;
           classification_settles (readAsDataURL file) service]
      | None => [press h_handleFileUpload e]
      end
  | click_shutter service =>
      match videoRef w, canvasRef w with
      | Some video, Some canvas =>
          if context2d canvas then
            [press h_capturePhoto {| files := None |};
             classification_settles
               (toDataURL encode_image "image/jpeg" (85 # 100)
                  (snapshot video canvas)) service]
          else [press h_capturePhoto {| files := None |}]
      | _, _ => [press h_capturePhoto {| files := None |}]
      end
  | click_reset => [press h_reset {| files := None |}]
  end.

(** What holds of the loop between any two turns. *)
Definition consistent (l : Loop) : Prop :=
  commit (now l) = now l
  /\ (exists canvas, canvasRef (now l) = Some canvas /\ context2d canvas = true)
  /\ (state (now l) = AppState.idle ->
      image (now l) = None /\ analysis (now l) = None /\ error (now l) = None)
  /\ (state (now l) = AppState.analyzing ->
      JsString.truthy_opt (image (now l)) = true
      /\ exists base64, In (classifying base64) (waiting l))
  /\ (state (now l) = AppState.error ->
      JsString.truthy_opt (error (now l)) = true).

(** The loop refuses every turn: no control on screen can be used and
    nothing waited for can settle. *)
Definition stuck
    (encode_image : string -> Q -> HTMLCanvasElement -> list byte) (l : Loop)
  : Prop :=
  forall t, turn encode_image t l = None.

(** The user opens the camera and cancels before answering the
    permission prompt. *)
Definition cancelled_prompt : list Turn :=
  [press h_startCamera {| files := None |}; press h_reset {| files := None |}].

(** The user cancels the camera prompt, uploads [file], then denies the
    camera: the error card shows over the uploaded image, and the user
    presses its button while the classification is still in flight. *)
Definition retried_during_classification (file : File) (denied : JsError)
  : list Turn :=
  cancelled_prompt
  ++ [press h_handleFileUpload {| files := Some [file] |};
      read_ends file;
      camera_settles (Rejected denied);
      press h_reset {| files := None |}].


Definition a_png : File :=
  {| type := "image/png"; contents := ["M"; "a"; "n"]%byte |}.

(** The service answers with the analysis of the example. *)
Definition plastic_answer : Settled GenerateContentResponse :=
  Fulfilled
    {| response_text :=
         Some
           (quoted
              "{'mainMaterial':'Plastic','confidences':{'glass':10,'plastic':70,'paper':10,'cardboard':5,'other':5},'recyclingTip':'Rinse it.','isRecyclable':true}") |}.

(** The user opens the camera and grants it; the camera delivers a 2 by 1
    picture on its two tracks. *)
Definition camera_films : list Turn :=
  [press h_startCamera {| files := None |};
   camera_settles (Fulfilled {| getTracks := [1; 2]%nat |});
   frame_arrives 2 1 ["M"; "a"; "n"; "M"; "a"; "n"]%byte].

Definition permission_denied : JsError :=
  {| name := "NotAllowedError"; message := "Permission denied" |}.

(** [key] is [mainMaterial], letter case ignored: the test of the JSX on
    each entry of the confidences. *)
Definition names (mainMaterial key : string) : bool :=
  String.eqb (JsString.toLowerCase key) (JsString.toLowerCase mainMaterial).

Definition is_digit (c : ascii) : bool :=
  let n := nat_of_ascii c in ((48 <=? n) && (n <=? 57))%nat.

(** A name written in ASCII that does not start with a digit: its lower
    case is that of its letters A to Z, and as a key it is listed by
    [Object.entries] where it was inserted (keys that are array indices
    are listed first). *)
Definition plain_name (s : string) : bool :=
  all_chars (fun c => (nat_of_ascii c <? 128)%nat) s
  && match s with
     | String c _ => negb (is_digit c)
     | EmptyString => true
     end.

(** An answer that keeps the five categories in alphabetical order and
    adds a sixth key in capitals. *)
Definition six_confidences : Json.value :=
  Json.Obj
    [ ("isRecyclable", Json.Bool true);
      ("mainMaterial", Json.Str "Plastic");
      ("confidences",
       Json.Obj
         [ ("PLASTIC", Json.Number 40);
           ("cardboard", Json.Number 5);
           ("glass", Json.Number 5);
           ("other", Json.Number 5);
           ("paper", Json.Number 5);
           ("plastic", Json.Number 40) ]);
      ("recyclingTip", Json.Str "Rinse it.") ].

(** A picture is there to encode: the video has a width and a height. *)
Definition has_pixels (video : HTMLVideoElement) : bool :=
  negb (Nat.eqb (videoWidth video) 0 || Nat.eqb (videoHeight video) 0).

(** An encoder for the examples: the pixels as they are. *)
Definition raw_encoder (type : string) (quality : Q) (c : HTMLCanvasElement)
  : list byte :=
  match drawn c with
  | Some pixels => pixels
  | None => []
  end.

(** [handleFileUpload] with a file whose read fails, run to its end. *)
Definition upload_fails : M unit := yield ;; read_failed.

(** What the component can come to when every handler runs to its end —
    the things it awaits settle, a read with the data URL or by failing —
    before the next control is used, the camera delivering frames to the
    viewfinder in between. *)
Inductive reachable_in_turn
    (encode_image : string -> Q -> HTMLCanvasElement -> list byte)
  : World -> Prop :=
| in_turn_start : reachable_in_turn encode_image initial
| in_turn_event (w : World) (ev : Event) :
    reachable_in_turn encode_image w ->
    offered (handler_of ev) w = true ->
    reachable_in_turn encode_image (final (handle encode_image ev w))
| in_turn_read_fails (w : World) :
    reachable_in_turn encode_image w ->
    offered h_handleFileUpload w = true ->
    reachable_in_turn encode_image (commit (world_of (upload_fails w)))
| in_turn_frame (w : World) (width height : nat) (pixels : Bitmap) :
    reachable_in_turn encode_image w ->
    stream_active w = true ->
    reachable_in_turn encode_image
      (world_of (frame_delivered width height pixels w)).

(** Every live track belongs to the stream on the viewfinder. *)
Definition camera_held_by_viewfinder (w : World) : Prop :=
  forall track,
    In track (liveTracks w) ->
    exists video stream,
      videoRef w = Some video /\ srcObject video = Some stream
      /\ In track (getTracks stream).

(** The camera is on only while capturing, and then through the stream on
    the viewfinder. *)
Definition camera_released (w : World) : Prop :=
  commit w = w
  /\ (exists canvas, canvasRef w = Some canvas /\ context2d canvas = true)
  /\ (state w <> AppState.capturing -> liveTracks w = [])
  /\ camera_held_by_viewfinder w.

(* ================================================================== *)
(** * Facts about strings, base64 and data URLs *)
(* ================================================================== *)

Example base64_Man : Base64.encode ["M"; "a"; "n"]%byte = "TWFu".
Proof. reflexivity. Qed.

Example base64_Ma : Base64.encode ["M"; "a"]%byte = "TWE=".
Proof. reflexivity. Qed.

Example base64_M : Base64.encode ["M"]%byte = "TQ==".
Proof. reflexivity. Qed.

Example base64_decode_Ma : Base64.decode "TWE=" = Some ["M"; "a"]%byte.
Proof. reflexivity. Qed.

Example split_data_url :
  JsString.split ","%char "data:image/png;base64,TWFu"
  = ["data:image/png;base64"; "TWFu"].
Proof. reflexivity. Qed.

Section SplitFacts.

Variable sep : ascii.

Lemma split_lacks (s : string) :
  JsString.lacks sep s = true -> JsString.split sep s = [s].
Proof.
  induction s as [|c rest IH]; simpl; [reflexivity|].
  intros H. apply andb_prop in H as [Hc Hrest].
  apply negb_true_iff in Hc. rewrite Hc, (IH Hrest). reflexivity.
Qed.

Lemma split_at_first (p r : string) :
  JsString.lacks sep p = true ->
  JsString.split sep (p ++ String sep r) = p :: JsString.split sep r.
Proof.
  induction p as [|c rest IH]; simpl; intros H.
  - rewrite Ascii.eqb_refl. reflexivity.
  - apply andb_prop in H as [Hc Hrest].
    apply negb_true_iff in Hc. rewrite Hc, (IH Hrest). reflexivity.
Qed.

Lemma lacks_app (p r : string) :
  JsString.lacks sep (p ++ r) = JsString.lacks sep p && JsString.lacks sep r.
Proof.
  induction p as [|c rest IH]; simpl; [reflexivity|].
  rewrite IH, andb_assoc. reflexivity.
Qed.

End SplitFacts.

(** Induction on a list of bytes, three at a time, as [Base64.encode] recurses. *)
Lemma triples_ind (P : list byte -> Prop) :
  P [] ->
  (forall a, P [a]) ->
  (forall a b, P [a; b]) ->
  (forall a b c rest, P rest -> P (a :: b :: c :: rest)) ->
  forall bs, P bs.
Proof.
  intros H0 H1 H2 H3.
  fix self 1.
  intros [|a [|b [|c rest]]]; [exact H0 | apply H1 | apply H2 |].
  apply H3, self.
Qed.

Lemma sextet_cases (n : N) (P : N -> Prop) :
  (n < 64)%N ->
  (forall m : nat, (m < 64)%nat -> P (N.of_nat m)) -> P n.
Proof.
  intros Hn H. rewrite <- (N2Nat.id n). apply H. lia.
Qed.

Lemma index_of_char_of (n : N) :
  (n < 64)%N -> Base64.index_of (Base64.char_of n) = Some n.
Proof.
  intros Hn. apply (sextet_cases n); [exact Hn|].
  intros m Hm.
  do 64 (destruct m as [|m]; [reflexivity|]). lia.
Qed.

Lemma char_of_not_pad (n : N) :
  (n < 64)%N -> Ascii.eqb (Base64.char_of n) Base64.pad = false.
Proof.
  intros Hn. apply (sextet_cases n); [exact Hn|].
  intros m Hm.
  do 64 (destruct m as [|m]; [reflexivity|]). lia.
Qed.

Lemma char_of_not_comma (n : N) :
  Ascii.eqb (Base64.char_of n) ","%char = false.
Proof.
  destruct (N.ltb_spec n 64) as [Hn|Hn].
  - apply (sextet_cases n); [exact Hn|].
    intros m Hm.
    do 64 (destruct m as [|m]; [reflexivity|]). lia.
  - unfold Base64.char_of.
    replace (N.to_nat n) with (64 + (N.to_nat n - 64))%nat by lia.
    reflexivity.
Qed.

Lemma sextet1_lt (a : N) : (a <= 255)%N -> (Base64.sextet1 a < 64)%N.
Proof. intros; euclid. Qed.

Lemma sextet2_lt (a b : N) :
  (b <= 255)%N -> (Base64.sextet2 a b < 64)%N.
Proof. intros; euclid. Qed.

Lemma sextet3_lt (b c : N) :
  (c <= 255)%N -> (Base64.sextet3 b c < 64)%N.
Proof. intros; euclid. Qed.

Lemma sextet4_lt (c : N) : (Base64.sextet4 c < 64)%N.
Proof. intros; euclid. Qed.

Lemma octet1_sextets (a b : N) :
  (b <= 255)%N ->
  Base64.octet1 (Base64.sextet1 a) (Base64.sextet2 a b) = a.
Proof. intros; euclid. Qed.

Lemma octet2_sextets (a b c : N) :
  (b <= 255)%N -> (c <= 255)%N ->
  Base64.octet2 (Base64.sextet2 a b) (Base64.sextet3 b c) = b.
Proof. intros; euclid. Qed.

Lemma octet3_sextets (b c : N) :
  (c <= 255)%N ->
  Base64.octet3 (Base64.sextet3 b c) (Base64.sextet4 c) = c.
Proof. intros; euclid. Qed.

Lemma zero_le_255 : (0 <= 255)%N.
Proof. lia. Qed.

Create HintDb b64.

#[local] Hint Resolve Byte.to_N_bounded zero_le_255 : b64.
#[local] Hint Resolve sextet1_lt sextet2_lt sextet3_lt sextet4_lt : b64.

(** Decoding undoes encoding: the bytes of a file are recovered exactly from
    their base64 text. *)
Lemma decode_encode (bs : list byte) :
  Base64.decode (Base64.encode bs) = Some bs.
Proof.
  induction bs as [|x|x y|x y z rest IH] using triples_ind.
  - reflexivity.
  - cbn [Base64.encode Base64.decode]. rewrite ?index_of_char_of, ?char_of_not_pad by auto with b64.
    rewrite !Ascii.eqb_refl.
    cbn [Base64.bytes_of fold_right].
    rewrite octet1_sextets by auto with b64.
    rewrite Byte.of_to_N. reflexivity.
  - cbn [Base64.encode Base64.decode]. rewrite ?index_of_char_of, ?char_of_not_pad by auto with b64.
    rewrite !Ascii.eqb_refl.
    cbn [Base64.bytes_of fold_right].
    rewrite octet1_sextets, octet2_sextets by auto with b64.
    rewrite !Byte.of_to_N. reflexivity.
  - cbn [Base64.encode Base64.decode]. rewrite ?index_of_char_of, ?char_of_not_pad by auto with b64.
    cbn [Base64.bytes_of fold_right].
    rewrite octet1_sextets, octet2_sextets, octet3_sextets by auto with b64.
    rewrite !Byte.of_to_N, IH. reflexivity.
Qed.

(** Base64 text holds no comma. *)
Lemma encode_lacks_comma (bs : list byte) :
  JsString.lacks ","%char (Base64.encode bs) = true.
Proof.
  induction bs as [|x|x y|x y z rest IH] using triples_ind;
    cbn [Base64.encode JsString.lacks];
    rewrite ?char_of_not_comma, ?IH; reflexivity.
Qed.

(** Encoding is injective: two files with the same base64 text are equal. *)
Lemma encode_injective (bs bs' : list byte) :
  Base64.encode bs = Base64.encode bs' -> bs = bs'.
Proof.
  intros H.
  assert (E : Some bs = Some bs')
    by (rewrite <- (decode_encode bs), <- (decode_encode bs'), H; reflexivity).
  congruence.
Qed.

Lemma mime_char_not_comma (c : ascii) :
  mime_char c = true -> Ascii.eqb c ","%char = false.
Proof.
  intros H. destruct (Ascii.eqb_spec c ","%char) as [->|]; [|reflexivity].
  discriminate H.
Qed.

Lemma mime_lacks_comma (t : string) :
  all_chars mime_char t = true -> JsString.lacks ","%char t = true.
Proof.
  induction t as [|c rest IH]; simpl; [reflexivity|].
  intros H. apply andb_prop in H as [Hc Hrest].
  rewrite (mime_char_not_comma c Hc), (IH Hrest). reflexivity.
Qed.

(** The data URL of a file splits, at its only comma, into the header and
    the base64 text of the bytes. *)
Lemma split_readAsDataURL (f : File) :
  all_chars mime_char (type f) = true ->
  exists header,
    JsString.split ","%char (readAsDataURL f)
    = [header; Base64.encode (contents f)].
Proof.
  intros Hmime.
  set (t := if JsString.truthy (type f) then type f else "application/octet-stream").
  assert (Ht : JsString.lacks ","%char t = true).
  { subst t. destruct (JsString.truthy (type f)); [|reflexivity].
    apply mime_lacks_comma, Hmime. }
  exists ("data:" ++ t ++ ";base64")%string.
  unfold readAsDataURL. fold t.
  change ("data:" ++ t ++ ";base64," ++ Base64.encode (contents f))%string
    with ("data:" ++ (t ++ ";base64," ++ Base64.encode (contents f)))%string.
  replace ("data:" ++ (t ++ ";base64," ++ Base64.encode (contents f)))%string
    with (("data:" ++ t ++ ";base64") ++ String "," (Base64.encode (contents f)))%string.
  - rewrite split_at_first.
    + rewrite split_lacks by apply encode_lacks_comma. reflexivity.
    + simpl. rewrite lacks_app, Ht. reflexivity.
  - simpl. do 5 f_equal.
    induction t as [|c rest IH]; simpl; [reflexivity|].
    f_equal. apply IH. simpl in Ht. apply andb_prop in Ht as [_ Ht]. exact Ht.
Qed.

(* ================================================================== *)
(** * The monad of handlers *)
(* ================================================================== *)

Lemma bind_ret_l {A B} (a : A) (k : A -> M B) (w : World) :
  bind (ret a) k w = k a w.
Proof. unfold bind, ret. destruct (k a w); reflexivity. Qed.

Lemma bind_ret_r {A} (m : M A) (w : World) : bind m ret w = m w.
Proof.
  unfold bind, ret. destruct (m w); [rewrite app_nil_r|]; reflexivity.
Qed.

Lemma bind_assoc {A B C} (m : M A) (k : A -> M B) (h : B -> M C) (w : World) :
  bind (bind m k) h w = bind m (fun a => bind (k a) h) w.
Proof.
  unfold bind. destruct (m w) as [a w1 fr1|e w1 fr1]; [|reflexivity].
  destruct (k a w1) as [b w2 fr2|e w2 fr2]; [|reflexivity].
  destruct (h b w2); rewrite app_assoc; reflexivity.
Qed.

(** A body that does not throw is not caught. *)
Lemma try_catch_returns {A} (body : M A) (handler : JsError -> M A) (w : World) :
  threw (body w) = false -> try_catch body handler w = body w.
Proof.
  unfold try_catch. destruct (body w); [reflexivity | discriminate].
Qed.

(** Committing twice is committing once. *)
Lemma commit_idempotent (w : World) : commit (commit w) = commit w.
Proof.
  unfold commit. cbn.
  destruct (state w), (videoRef w), (canvasRef w); reflexivity.
Qed.

(* ================================================================== *)
(** * Facts about the world and the camera *)
(* ================================================================== *)

Lemma with_liveTracks_same (w : World) : with_liveTracks (liveTracks w) w = w.
Proof. destruct w; reflexivity. Qed.

Lemma filter_compose {A} (p q : A -> bool) (l : list A) :
  filter p (filter q l) = filter (fun x => q x && p x) l.
Proof.
  induction l as [|x l IH]; simpl; [reflexivity|].
  destruct (q x); simpl; [destruct (p x)|]; rewrite ?IH; reflexivity.
Qed.

(** Stopping tracks keeps exactly the live tracks that are not among them. *)
Lemma stop_all_filter (stopped live : list nat) :
  stop_all stopped live
  = filter (fun t => negb (existsb (Nat.eqb t) stopped)) live.
Proof.
  unfold stop_all. revert live.
  induction stopped as [|s rest IH]; intros live; simpl.
  - induction live as [|t live IHl]; simpl; [reflexivity|]. f_equal. exact IHl.
  - rewrite IH, filter_compose. apply filter_ext. intros t.
    rewrite negb_orb. reflexivity.
Qed.

Lemma stop_all_idempotent (stopped live : list nat) :
  stop_all stopped (stop_all stopped live) = stop_all stopped live.
Proof.
  rewrite !stop_all_filter, filter_compose.
  apply filter_ext. intros t. apply andb_diag.
Qed.

Lemma stop_all_none_live (stopped live : list nat) :
  existsb (fun t => existsb (Nat.eqb t) live) stopped = false ->
  stop_all stopped live = live.
Proof.
  intros H. rewrite stop_all_filter.
  induction live as [|t live IH]; simpl; [reflexivity|].
  assert (Ht : existsb (Nat.eqb t) stopped = false).
  { destruct (existsb (Nat.eqb t) stopped) eqn:E; [|reflexivity].
    apply existsb_exists in E as [s [Hin Hs]].
    apply Nat.eqb_eq in Hs. subst s.
    assert (existsb (fun t0 => existsb (Nat.eqb t0) (t :: live)) stopped = true).
    { apply existsb_exists. exists t. split; [exact Hin|].
      simpl. rewrite Nat.eqb_refl. reflexivity. }
    congruence. }
  rewrite Ht. simpl. f_equal. apply IH.
  destruct (existsb (fun t0 => existsb (Nat.eqb t0) live) stopped) eqn:E;
    [|reflexivity].
  apply existsb_exists in E as [s [Hin Hs]].
  assert (existsb (fun t0 => existsb (Nat.eqb t0) (t :: live)) stopped = true).
  { apply existsb_exists. exists s. split; [exact Hin|].
    simpl. rewrite Hs. apply orb_true_r. }
  congruence.
Qed.

Lemma stop_all_not_live (stopped live : list nat) (t : nat) :
  In t stopped -> ~ In t (stop_all stopped live).
Proof.
  intros Hin Hlive. rewrite stop_all_filter in Hlive.
  apply filter_In in Hlive as [_ H].
  apply negb_true_iff in H.
  assert (existsb (Nat.eqb t) stopped = true).
  { apply existsb_exists. exists t. split; [exact Hin | apply Nat.eqb_refl]. }
  congruence.
Qed.

(** [forEach] over the tracks of a stream stops them all, and does nothing else. *)
Lemma forEach_track_stop (tracks : list nat) (w : World) :
  forEach tracks track_stop w
  = Ok tt (with_liveTracks (stop_all tracks (liveTracks w)) w) [].
Proof.
  revert w. induction tracks as [|t rest IH]; intros w.
  - simpl. unfold ret. rewrite with_liveTracks_same. reflexivity.
  - cbn [forEach]. unfold bind at 1. unfold track_stop at 1, modify.
    rewrite IH. reflexivity.
Qed.

(** [stopCamera] returns, commits nothing, and touches the live tracks only. *)
Lemma stopCamera_run (w : World) :
  stopCamera w = Ok tt (with_liveTracks (after_stop w) w) [].
Proof.
  unfold stopCamera, after_stop, bind, read.
  destruct (videoRef w) as [video|].
  - destruct (srcObject video) as [stream|].
    + rewrite forEach_track_stop. reflexivity.
    + unfold ret. rewrite with_liveTracks_same. reflexivity.
  - unfold ret. rewrite with_liveTracks_same. reflexivity.
Qed.

Lemma after_stop_inactive (w : World) :
  stream_active w = false -> after_stop w = liveTracks w.
Proof.
  unfold stream_active, after_stop.
  destruct (videoRef w) as [video|]; [|reflexivity].
  destruct (srcObject video) as [stream|]; [|reflexivity].
  apply stop_all_none_live.
Qed.

Lemma reset_run (w : World) :
  reset w
  = Ok tt
      (with_state AppState.idle
         (with_error None
            (with_analysis None
               (with_image None (with_liveTracks (after_stop w) w)))))
      [].
Proof.
  unfold reset. unfold bind at 1. rewrite stopCamera_run. reflexivity.
Qed.

(* ================================================================== *)
(** * The camera *)
(* ================================================================== *)

(** Claim C1. When the camera permission request is denied or no camera exists
    (the promise of [getUserMedia] rejects, with whatever error), a run of
    [startCamera] that starts with no stream on the viewfinder returns with
    the controller in the error state and the capture error message set, and
    no frame of the run — the one committed at the await, in the capturing
    state, and the one committed after the handler — has a stream attached
    to the viewfinder. *)
Theorem startCamera_denied (e : JsError) (w : World) :
  video_active w = false ->
  let run := startCamera (Rejected e) w in
  threw run = false
  /\ state (final run) = AppState.error
  /\ error (final run)
     = Some "Unable to access camera. Please check permissions."
  /\ JsString.truthy_opt (error (final run)) = true
  /\ Forall (fun frame => video_active frame = false) (frames_of run)
  /\ map state (frames_of run) = [AppState.capturing; AppState.error].
Proof.
  intros Hidle run. subst run.
  assert (Hframe : video_active (commit (with_state AppState.capturing w)) = false).
  { unfold video_active in *. cbn.
    destruct (videoRef w) as [video|]; [exact Hidle | reflexivity]. }
  split; [reflexivity|]. split; [reflexivity|]. split; [reflexivity|].
  split; [reflexivity|]. split; [|reflexivity].
  cbn [frames_of startCamera]. cbn.
  constructor; [exact Hframe|]. constructor; [reflexivity|]. constructor.
Qed.

Lemma startCamera_denied_witness :
  let e := {| name := "NotAllowedError"; message := "Permission denied" |} in
  let run := startCamera (Rejected e) initial in
  threw run = false
  /\ state (final run) = AppState.error
  /\ error (final run)
     = Some "Unable to access camera. Please check permissions."
  /\ JsString.truthy_opt (error (final run)) = true
  /\ Forall (fun frame => video_active frame = false) (frames_of run)
  /\ map state (frames_of run) = [AppState.capturing; AppState.error].
Proof.
  exact (startCamera_denied
           {| name := "NotAllowedError"; message := "Permission denied" |}
           initial eq_refl).
Defined.

(** Claim C7. [stopCamera] never throws and never touches the state, the image,
    the analysis or the error; when no media stream is active (no
    viewfinder, no stream on it, or a stream without a live track) it leaves
    the whole world as it is; and calling it twice in succession is calling
    it once. *)
Theorem stopCamera_noop_idempotent (w : World) :
  threw (stopCamera w) = false
  /\ state (world_of (stopCamera w)) = state w
  /\ image (world_of (stopCamera w)) = image w
  /\ analysis (world_of (stopCamera w)) = analysis w
  /\ error (world_of (stopCamera w)) = error w
  /\ (stream_active w = false -> stopCamera w = Ok tt w [])
  /\ (stopCamera ;; stopCamera)%js w = stopCamera w.
Proof.
  rewrite stopCamera_run. cbn.
  repeat split.
  - intros H. rewrite (after_stop_inactive w H), with_liveTracks_same.
    reflexivity.
  - unfold bind. rewrite !stopCamera_run. cbn. f_equal.
    unfold with_liveTracks; cbn. f_equal.
    unfold after_stop; cbn.
    destruct (videoRef w) as [video|]; [|reflexivity].
    destruct (srcObject video) as [stream|]; [|reflexivity].
    apply stop_all_idempotent.
Qed.

(* ================================================================== *)
(** * The controller *)
(* ================================================================== *)

(** Claim C3. From the result state or the error state, whatever the image, the
    analysis and the error hold, [reset] returns with the three of them null
    and the state idle. *)
Theorem reset_to_idle (w : World) :
  state w = AppState.result \/ state w = AppState.error ->
  threw (reset w) = false
  /\ image (final (reset w)) = None
  /\ analysis (final (reset w)) = None
  /\ error (final (reset w)) = None
  /\ state (final (reset w)) = AppState.idle.
Proof.
  intros _. rewrite reset_run. cbn. repeat split.
Qed.

Lemma reset_to_idle_witness :
  let w :=
    with_state AppState.error
      (with_error (Some "AI analysis failed. Please try a different photo.")
         (with_image (Some "data:image/png;base64,TWFu") initial)) in
  threw (reset w) = false
  /\ image (final (reset w)) = None
  /\ analysis (final (reset w)) = None
  /\ error (final (reset w)) = None
  /\ state (final (reset w)) = AppState.idle.
Proof.
  exact (reset_to_idle
           (with_state AppState.error
              (with_error (Some "AI analysis failed. Please try a different photo.")
                 (with_image (Some "data:image/png;base64,TWFu") initial)))
           (or_intror eq_refl)).
Defined.

(** Claim C10. With an empty file selection ([files] null or without a first
    file), [handleFileUpload] returns at once: the world — state, image,
    analysis, error, and the requests sent to the model service — is
    unchanged, and nothing is committed. *)
Theorem handleFileUpload_no_file
    (e : ChangeEvent) (service : Settled GenerateContentResponse) (w : World) :
  files e = None \/ files e = Some [] ->
  handleFileUpload e service w = Ok tt w []
  /\ requests (world_of (handleFileUpload e service w)) = requests w.
Proof.
  intros [H|H]; unfold handleFileUpload; rewrite H; split; reflexivity.
Qed.

Lemma handleFileUpload_no_file_witness :
  let service := Fulfilled {| response_text := Some "{}" |} in
  handleFileUpload {| files := Some [] |} service initial = Ok tt initial []
  /\ requests (world_of (handleFileUpload {| files := Some [] |} service initial))
     = requests initial.
Proof.
  exact (handleFileUpload_no_file
           {| files := Some [] |}
           (Fulfilled {| response_text := Some "{}" |})
           initial (or_intror eq_refl)).
Defined.

(* ================================================================== *)
(** * The classification client *)
(* ================================================================== *)

Lemma analyzeWaste_run (base64Image : string)
    (service : Settled GenerateContentResponse) (w : World) :
  geminiService.analyzeWaste base64Image service w
  = match answer service with
    | inl e =>
        Throw e (logged e (sent base64Image w)) [sent base64Image w]
    | inr v => Ok v (sent base64Image w) [sent base64Image w]
    end.
Proof.
  unfold answer.
  destruct service as [r|e]; [|reflexivity].
  destruct r as [[text|]]; [|reflexivity].
  cbn [response_text].
  destruct text as [|c rest]; [reflexivity|].
  cbn [JsString.truthy].
  unfold geminiService.analyzeWaste, geminiService.JSON_parse.
  run_js.
  destruct (Json.parse (String c rest)) as [v|]; reflexivity.
Qed.

Lemma classification_fails_answer (service : Settled GenerateContentResponse) :
  classification_fails service
  = match answer service with inl _ => true | inr _ => false end.
Proof.
  unfold classification_fails, answer, network_failed, no_usable_payload, not_json.
  destruct service as [r|e]; [|reflexivity].
  destruct (response_text r) as [text|]; [|reflexivity].
  cbn [JsString.truthy_opt].
  destruct (JsString.truthy text); [|reflexivity].
  destruct (Json.parse text); reflexivity.
Qed.

Lemma parse_empty : Json.parse EmptyString = None.
Proof. reflexivity. Qed.

(** A payload that is not JSON is not a [WasteAnalysis] either. *)
Lemma not_json_not_a_WasteAnalysis (service : Settled GenerateContentResponse) :
  not_json service = true -> not_a_WasteAnalysis service = true.
Proof.
  unfold not_json, not_a_WasteAnalysis.
  destruct service as [r|e]; [|discriminate].
  destruct (response_text r) as [text|]; [|discriminate].
  destruct (JsString.truthy text); [|discriminate].
  destruct (Json.parse text); [discriminate | reflexivity].
Qed.

(** Claim C2, as the code has it. [analyzeWaste] throws exactly when the network
    call fails, or the service returns no usable payload (no text or an
    empty one), or the payload is not JSON text; it returns [v] exactly when
    the service answers with a text that [JSON.parse] reads as [v], whatever
    the shape of [v]: the value is not checked against the [WasteAnalysis]
    schema.  When none of the three failures of the claim holds, what it
    returns is a [WasteAnalysis] record. *)
Theorem analyzeWaste_fails_exactly_when (base64Image : string)
    (service : Settled GenerateContentResponse) (w : World) :
  let run := geminiService.analyzeWaste base64Image service w in
  threw run
  = network_failed service || no_usable_payload service || not_json service
  /\ (forall v,
        returned run = Some v
        <-> exists r text,
              service = Fulfilled r /\ response_text r = Some text
              /\ Json.parse text = Some v)
  /\ (network_failed service || no_usable_payload service
      || not_a_WasteAnalysis service = false ->
      exists v, returned run = Some v /\ WasteAnalysis.has_type v = true).
Proof.
  intros run. subst run. rewrite analyzeWaste_run.
  fold (classification_fails service). rewrite classification_fails_answer.
  split; [destruct (answer service); reflexivity|].
  split.
  - intros v. unfold answer.
    destruct service as [r|e].
    + destruct r as [[text|]]; cbn [response_text].
      * destruct text as [|c rest]; cbn [JsString.truthy].
        -- split; [discriminate|].
           intros (r & text & Hr & Ht & Hv).
           injection Hr as <-. cbn in Ht. injection Ht as <-.
           rewrite parse_empty in Hv. discriminate.
        -- destruct (Json.parse (String c rest)) as [v'|] eqn:Hparse; cbn.
           ++ split.
              ** intros H. injection H as ->.
                 exists {| response_text := Some (String c rest) |}, (String c rest).
                 repeat split. exact Hparse.
              ** intros (r & text & Hr & Ht & Hv).
                 injection Hr as <-. cbn in Ht. injection Ht as <-.
                 congruence.
           ++ split; [discriminate|].
              intros (r & text & Hr & Ht & Hv).
              injection Hr as <-. cbn in Ht. injection Ht as <-.
              congruence.
      * split; [discriminate|].
        intros (r & text & Hr & Ht & Hv).
        injection Hr as <-. discriminate.
    + split; [discriminate|].
      intros (r & text & Hr & _). discriminate.
  - unfold network_failed, no_usable_payload, not_a_WasteAnalysis, answer.
    destruct service as [r|e]; [|discriminate].
    destruct (response_text r) as [text|]; [|discriminate].
    cbn [JsString.truthy_opt orb].
    destruct (JsString.truthy text); [|discriminate].
    cbn [negb andb orb].
    destruct (Json.parse text) as [v|]; [|discriminate].
    intros H. apply negb_false_iff in H.
    exists v. split; [reflexivity | exact H].
Qed.

(** Claim C2, as the claim has it, fails.  The service answers [{}]: the payload
    is JSON, it cannot be parsed into the [WasteAnalysis] schema (every
    required field is missing), the network call did not fail, and yet
    [analyzeWaste] does not throw: it returns the empty object. *)
Lemma analyzeWaste_returns_unvalidated :
  let service := Fulfilled {| response_text := Some "{}" |} in
  let run :=
    geminiService.analyzeWaste "data:image/jpeg;base64,TWFu" service initial in
  network_failed service = false
  /\ no_usable_payload service = false
  /\ not_a_WasteAnalysis service = true
  /\ threw run = false
  /\ returned run = Some (Json.Obj [])
  /\ conforms geminiService.responseSchema (Json.Obj []) = false.
Proof. repeat split. Qed.

(* ================================================================== *)
(** * The analysis cycle *)
(* ================================================================== *)

Lemma processAnalysis_run (base64 : string)
    (service : Settled GenerateContentResponse) (w : World) :
  processAnalysis base64 service w
  = match answer service with
    | inl e =>
        Ok tt
          (with_state AppState.error
             (with_error (Some analysis_failed)
                (commit (logged e (analyzing_world base64 w)))))
          [analyzing_world base64 w;
           commit (logged e (analyzing_world base64 w))]
    | inr v =>
        Ok tt
          (with_state AppState.result
             (with_analysis (Some v) (commit (analyzing_world base64 w))))
          [analyzing_world base64 w; commit (analyzing_world base64 w)]
    end.
Proof.
  unfold processAnalysis, analyzing_world. run_js.
  rewrite analyzeWaste_run.
  destruct (answer service) as [e|v]; reflexivity.
Qed.

(** Committing changes neither the state cells nor what left the component. *)
Lemma commit_cells (w : World) :
  state (commit w) = state w
  /\ image (commit w) = image w
  /\ analysis (commit w) = analysis w
  /\ error (commit w) = error w
  /\ requests (commit w) = requests w
  /\ liveTracks (commit w) = liveTracks w.
Proof. repeat split. Qed.

Lemma analyzing_world_cells (base64 : string) (w : World) :
  state (analyzing_world base64 w) = AppState.analyzing
  /\ image (analyzing_world base64 w) = image w
  /\ analysis (analyzing_world base64 w) = analysis w
  /\ error (analyzing_world base64 w) = None
  /\ requests (analyzing_world base64 w)
     = requests w ++ [geminiService.request base64]
  /\ liveTracks (analyzing_world base64 w) = liveTracks w.
Proof. repeat split. Qed.

(** [analyzeWaste] throws exactly when the classification fails, in whatever
    world it is called. *)
Lemma analyzeWaste_threw (base64Image : string)
    (service : Settled GenerateContentResponse) (w : World) :
  threw (geminiService.analyzeWaste base64Image service w)
  = classification_fails service.
Proof.
  rewrite analyzeWaste_run, classification_fails_answer.
  destruct (answer service); reflexivity.
Qed.

(** Claim C4. [processAnalysis] puts the controller in the analyzing state
    and calls the classification client there.  Whenever that call throws or
    rejects, the controller, analyzing at both awaits, ends in the error
    state with a non-empty error message stored; [processAnalysis] itself
    does not throw. *)
Theorem processAnalysis_failure (base64 : string)
    (service : Settled GenerateContentResponse) (w : World) :
  let calling := with_error None (with_state AppState.analyzing w) in
  threw (geminiService.analyzeWaste base64 service calling) = true ->
  let run := processAnalysis base64 service w in
  state calling = AppState.analyzing
  /\ threw run = false
  /\ map state (frames_of run)
     = [AppState.analyzing; AppState.analyzing; AppState.error]
  /\ state (final run) = AppState.error
  /\ error (final run) = Some analysis_failed
  /\ JsString.truthy_opt (error (final run)) = true.
Proof.
  intros calling Hfails run. subst run calling.
  rewrite analyzeWaste_threw, classification_fails_answer in Hfails.
  rewrite processAnalysis_run.
  destruct (answer service) as [e|v]; [|discriminate].
  repeat split.
Qed.

Lemma processAnalysis_failure_witness :
  let service :=
    Rejected {| name := "TypeError"; message := "Failed to fetch" |} in
  let run := processAnalysis "data:image/jpeg;base64,TWFu" service initial in
  state (with_error None (with_state AppState.analyzing initial))
  = AppState.analyzing
  /\ threw run = false
  /\ map state (frames_of run)
     = [AppState.analyzing; AppState.analyzing; AppState.error]
  /\ state (final run) = AppState.error
  /\ error (final run) = Some analysis_failed
  /\ JsString.truthy_opt (error (final run)) = true.
Proof.
  exact (processAnalysis_failure "data:image/jpeg;base64,TWFu"
           (Rejected {| name := "TypeError"; message := "Failed to fetch" |})
           initial eq_refl).
Defined.

Lemma processAnalysis_ends (base64 : string)
    (service : Settled GenerateContentResponse) (w : World) :
  let run := processAnalysis base64 service w in
  threw run = false
  /\ awaits run
     = [analyzing_world base64 w;
        match answer service with
        | inl e => commit (logged e (analyzing_world base64 w))
        | inr _ => commit (analyzing_world base64 w)
        end]
  /\ image (final run) = image w
  /\ state (final run)
     = match answer service with
       | inl _ => AppState.error
       | inr _ => AppState.result
       end
  /\ analysis (final run)
     = match answer service with
       | inl _ => analysis w
       | inr v => Some v
       end
  /\ error (final run)
     = match answer service with
       | inl _ => Some analysis_failed
       | inr _ => None
       end.
Proof.
  intros run. subst run. rewrite processAnalysis_run.
  destruct (answer service) as [e|v]; repeat split.
Qed.




(** In the result state and in the error state the only handler a rendered
    control starts is [reset]. *)
Lemma render_offers_reset_only (w : World) :
  state w = AppState.result \/ state w = AppState.error ->
  Forall (fun h => h = h_reset) (actions (render w)).
Proof.
  intros [H|H]; unfold render, actions; cbn; rewrite H; cbn.
  - destruct (image w) as [src|]; [|constructor].
    destruct (JsString.truthy src); [|constructor]. cbn.
    destruct (analysis w) as [a|]; [|constructor].
    destruct (truthy_value a); [|constructor].
    destruct (resultCard a) as [|c|] eqn:Hcard; cbn; try constructor.
    + unfold resultCard in Hcard.
      repeat match type of Hcard with
             | match ?x with _ => _ end = _ => destruct x; try discriminate Hcard
             end.
      injection Hcard as <-. reflexivity.
    + constructor.
  - destruct (image w) as [src|]; [|constructor].
    destruct (JsString.truthy src); [|constructor]. cbn.
    constructor; [reflexivity | constructor].
Qed.

(* ================================================================== *)
(** * The upload path *)
(* ================================================================== *)

Lemma handleFileUpload_run (f : File) (others : list File)
    (service : Settled GenerateContentResponse) (w : World) :
  handleFileUpload {| files := Some (f :: others) |} service w
  = match
      processAnalysis (readAsDataURL f) service
        (with_image (Some (readAsDataURL f)) (commit w))
    with
    | Ok a w' frames => Ok a w' (commit w :: frames)
    | Throw e w' frames => Throw e w' (commit w :: frames)
    end.
Proof.
  unfold handleFileUpload, onloadend. cbn [files nth_error]. run_js.
  destruct (processAnalysis _ _ _); reflexivity.
Qed.

(** The client forwards what follows the first comma of the data URL: for
    the data URL of a file, the base64 text of its bytes. *)
Lemma request_body (f : File) :
  all_chars mime_char (type f) = true ->
  inlineData_data (geminiService.request (readAsDataURL f))
  = Some (Base64.encode (contents f)).
Proof.
  intros Hmime. destruct (split_readAsDataURL f Hmime) as [header Hsplit].
  unfold geminiService.request. cbn [inlineData_data].
  rewrite Hsplit. reflexivity.
Qed.

(** A data URL read from a file decodes to the file's bytes. *)
Lemma decode_readAsDataURL (f : File) :
  all_chars mime_char (type f) = true ->
  decodeDataURL (readAsDataURL f) = Some (contents f).
Proof.
  intros Hmime. destruct (split_readAsDataURL f Hmime) as [header Hsplit].
  unfold decodeDataURL. rewrite Hsplit. cbn [nth_error].
  apply decode_encode.
Qed.

(** Claim C6. For a selected image file and a controller in the idle state, the
    upload path goes idle, analyzing, analyzing, then result or error: no
    frame of the run is in the capturing state.  The payload handed to the
    classification client is the data URL of the file, which decodes to the
    bytes of the file; the client sends one request, whose image data is
    exactly the base64 body of that data URL, and that body decodes to the
    bytes of the file. *)
Theorem handleFileUpload_bypasses_capturing (f : File) (others : list File)
    (service : Settled GenerateContentResponse) (w : World) :
  image_file f = true ->
  state w = AppState.idle ->
  let run := handleFileUpload {| files := Some (f :: others) |} service w in
  threw run = false
  /\ map state (frames_of run)
     = [AppState.idle; AppState.analyzing; AppState.analyzing;
        match answer service with
        | inl _ => AppState.error
        | inr _ => AppState.result
        end]
  /\ Forall (fun frame => AppState.eqb (state frame) AppState.capturing = false)
       (frames_of run)
  /\ image (final run) = Some (readAsDataURL f)
  /\ decodeDataURL (readAsDataURL f) = Some (contents f)
  /\ requests (final run)
     = requests w ++ [geminiService.request (readAsDataURL f)]
  /\ inlineData_data (geminiService.request (readAsDataURL f))
     = Some (Base64.encode (contents f))
  /\ Base64.decode (Base64.encode (contents f)) = Some (contents f).
Proof.
  intros Himage Hidle run. subst run.
  apply andb_prop in Himage as [_ Hmime].
  rewrite handleFileUpload_run, processAnalysis_run.
  destruct (answer service) as [e|v]; cbn [threw frames_of final map].
  - split; [reflexivity|].
    split; [cbn [app map]; apply (f_equal (fun s => s :: _) Hidle)|].
    split; [cbn [app]; constructor;
            [change (AppState.eqb (state w) AppState.capturing = false);
             rewrite Hidle; reflexivity
            | repeat constructor]|].
    split; [reflexivity|].
    split; [apply decode_readAsDataURL, Hmime|].
    split; [reflexivity|].
    split; [apply request_body, Hmime | apply decode_encode].
  - split; [reflexivity|].
    split; [cbn [app map]; apply (f_equal (fun s => s :: _) Hidle)|].
    split; [cbn [app]; constructor;
            [change (AppState.eqb (state w) AppState.capturing = false);
             rewrite Hidle; reflexivity
            | repeat constructor]|].
    split; [reflexivity|].
    split; [apply decode_readAsDataURL, Hmime|].
    split; [reflexivity|].
    split; [apply request_body, Hmime | apply decode_encode].
Qed.

Lemma handleFileUpload_bypasses_capturing_witness :
  let f := {| type := "image/png"; contents := ["M"; "a"; "n"]%byte |} in
  let service := Fulfilled {| response_text := Some "{}" |} in
  let run := handleFileUpload {| files := Some [f] |} service initial in
  threw run = false
  /\ map state (frames_of run)
     = [AppState.idle; AppState.analyzing; AppState.analyzing;
        match answer service with
        | inl _ => AppState.error
        | inr _ => AppState.result
        end]
  /\ Forall (fun frame => AppState.eqb (state frame) AppState.capturing = false)
       (frames_of run)
  /\ image (final run) = Some (readAsDataURL f)
  /\ decodeDataURL (readAsDataURL f) = Some (contents f)
  /\ requests (final run)
     = requests initial ++ [geminiService.request (readAsDataURL f)]
  /\ inlineData_data (geminiService.request (readAsDataURL f))
     = Some (Base64.encode (contents f))
  /\ Base64.decode (Base64.encode (contents f)) = Some (contents f).
Proof.
  exact (handleFileUpload_bypasses_capturing
           {| type := "image/png"; contents := ["M"; "a"; "n"]%byte |}
           []
           (Fulfilled {| response_text := Some "{}" |})
           initial eq_refl eq_refl).
Defined.

(* ================================================================== *)
(** * The shutter *)
(* ================================================================== *)

Section Shutter.

Variable encode_image : string -> Q -> HTMLCanvasElement -> list byte.

Lemma capturePhoto_run (service : Settled GenerateContentResponse)
    (w : World) (video : HTMLVideoElement) (canvas : HTMLCanvasElement) :
  videoRef w = Some video ->
  canvasRef w = Some canvas ->
  capturePhoto encode_image service w
  = if context2d canvas then
      processAnalysis
        (toDataURL encode_image "image/jpeg" (85 # 100) (snapshot video canvas))
        service
        (captured
           (toDataURL encode_image "image/jpeg" (85 # 100) (snapshot video canvas))
           (snapshot video canvas) w)
    else
      Ok tt
        (with_canvasRef
           (Some (resize (videoWidth video) (videoHeight video) canvas)) w)
        [].
Proof.
  intros Hvideo Hcanvas.
  unfold capturePhoto. run_js. rewrite Hvideo, Hcanvas.
  cbn [context2d resize].
  destruct (context2d canvas); [|reflexivity].
  rewrite stopCamera_run. cbn [app].
  unfold captured, snapshot, after_stop.
  cbn [videoRef liveTracks with_image with_canvasRef].
  rewrite Hvideo.
  destruct (processAnalysis _ _ _); reflexivity.
Qed.

Lemma capturePhoto_unmounted (service : Settled GenerateContentResponse)
    (w : World) :
  videoRef w = None \/ canvasRef w = None ->
  capturePhoto encode_image service w = Ok tt w [].
Proof.
  intros [H|H]; unfold capturePhoto; run_js; rewrite H.
  - reflexivity.
  - destruct (videoRef w); reflexivity.
Qed.

End Shutter.

(** Claim C5, as the code has it.  Whenever [capturePhoto] runs with the
    viewfinder and the canvas mounted and a 2D context at hand — whether or
    not the video has a frame — it sizes the canvas to [videoWidth] by
    [videoHeight], draws the video's frame on it, encodes it as a JPEG at
    quality 0.85, stores that data URL as the image, stops every track of
    the camera's stream and hands the data URL to the classification client
    (through [processAnalysis], which sends one request for it).  It is a
    silent no-op when the viewfinder or the canvas is not mounted; and
    without a 2D context it resizes the canvas and does nothing else. *)
Theorem capturePhoto_captures
    (encode_image : string -> Q -> HTMLCanvasElement -> list byte)
    (service : Settled GenerateContentResponse) (w : World) :
  let run := capturePhoto encode_image service w in
  (forall video canvas,
      videoRef w = Some video ->
      canvasRef w = Some canvas ->
      context2d canvas = true ->
      let shot := snapshot video canvas in
      let dataUrl := toDataURL encode_image "image/jpeg" (85 # 100) shot in
      width shot = videoWidth video
      /\ height shot = videoHeight video
      /\ (forall frame, currentFrame video = Some frame -> drawn shot = Some frame)
      /\ run = processAnalysis dataUrl service (captured dataUrl shot w)
      /\ canvasRef (final run) = Some shot
      /\ image (final run) = Some dataUrl
      /\ (forall stream track,
            srcObject video = Some stream ->
            In track (getTracks stream) ->
            ~ In track (liveTracks (final run)))
      /\ requests (final run) = requests w ++ [geminiService.request dataUrl]
      /\ map state (awaits run) = [AppState.analyzing; AppState.analyzing])
  /\ (videoRef w = None \/ canvasRef w = None -> run = Ok tt w [])
  /\ (forall video canvas,
        videoRef w = Some video ->
        canvasRef w = Some canvas ->
        context2d canvas = false ->
        run
        = Ok tt
            (with_canvasRef
               (Some (resize (videoWidth video) (videoHeight video) canvas)) w)
            []).
Proof.
  intros run. subst run. split; [|split].
  - intros video canvas Hvideo Hcanvas Hctx shot dataUrl.
    rewrite (capturePhoto_run encode_image service w video canvas Hvideo Hcanvas).
    rewrite Hctx. fold shot. fold dataUrl.
    split; [reflexivity|]. split; [reflexivity|].
    split.
    { intros frame Hframe. subst shot. unfold snapshot, drawImage.
      cbn [drawn]. rewrite Hframe. reflexivity. }
    split; [reflexivity|].
    rewrite processAnalysis_run.
    assert (Hlive : forall stream track,
               srcObject video = Some stream ->
               In track (getTracks stream) ->
               ~ In track (after_stop w)).
    { intros stream track Hstream Hin. unfold after_stop.
      rewrite Hvideo, Hstream. apply stop_all_not_live, Hin. }
    destruct (answer service) as [e|v];
      (split; [reflexivity|]); (split; [reflexivity|]);
      (split; [exact Hlive|]); split; reflexivity.
  - apply capturePhoto_unmounted.
  - intros video canvas Hvideo Hcanvas Hctx.
    rewrite (capturePhoto_run encode_image service w video canvas Hvideo Hcanvas).
    rewrite Hctx. reflexivity.
Qed.

(** [capturePhoto] on a camera that is filming: the 2 by 1 frame is drawn,
    encoded and stored, both tracks are stopped and one request leaves. *)
Lemma capturePhoto_captures_witness :
  let service := Fulfilled {| response_text := Some "{}" |} in
  let run := capturePhoto silent_encoder service filming in
  frame_available filming = true
  /\ option_map drawn (canvasRef (final run))
     = Some (Some ["M"; "a"; "n"; "M"; "a"; "n"]%byte)
  /\ image (final run) = Some "data:image/jpeg;base64,"
  /\ ~ In 1%nat (liveTracks (final run))
  /\ requests (final run) = [geminiService.request "data:image/jpeg;base64,"].
Proof.
  destruct (capturePhoto_captures silent_encoder
              (Fulfilled {| response_text := Some "{}" |}) filming)
    as [Hshot _].
  destruct (Hshot
              {| srcObject := Some {| getTracks := [1; 2]%nat |};
                 videoWidth := 2; videoHeight := 1;
                 currentFrame := Some ["M"; "a"; "n"; "M"; "a"; "n"]%byte |}
              mountedCanvas eq_refl eq_refl eq_refl)
    as (_ & _ & _ & _ & Hcanvas & Himage & Hstopped & Hrequests & _).
  split; [reflexivity|].
  split; [rewrite Hcanvas; reflexivity|].
  split; [exact Himage|].
  split; [apply (Hstopped {| getTracks := [1; 2]%nat |}); [reflexivity | left; reflexivity]|].
  exact Hrequests.
Defined.

(** Claim C5, as the claim has it, fails.  The permission prompt is still open:
    the viewfinder is mounted without a stream and without a frame.  The
    shutter is not a no-op there: a picture without pixels is encoded as
    [data:,], stored as the image, and handed to the classification client,
    which sends a request; the controller leaves the capturing state. *)
Lemma capturePhoto_without_frame :
  let service :=
    Rejected {| name := "ApiError"; message := "invalid image" |} in
  let run := capturePhoto silent_encoder service waiting_for_camera in
  frame_available waiting_for_camera = false
  /\ video_active waiting_for_camera = false
  /\ state waiting_for_camera = AppState.capturing
  /\ image waiting_for_camera = None
  /\ requests waiting_for_camera = []
  /\ image (final run) = Some "data:,"
  /\ map inlineData_data (requests (final run)) = [Some EmptyString]
  /\ map state (frames_of run)
     = [AppState.analyzing; AppState.analyzing; AppState.error].
Proof. repeat split. Qed.

(* ================================================================== *)
(** * Entering and leaving the error and result states *)
(* ================================================================== *)


(* ================================================================== *)
(** * The result card *)
(* ================================================================== *)

(** [Math.round] gives the nearest integer: within a half of its argument. *)
Lemma Math_round_nearest (x : Q) :
  (inject_Z (Math_round x) - (1 # 2) <= x)%Q
  /\ (x < inject_Z (Math_round x) + (1 # 2))%Q.
Proof.
  unfold Math_round.
  pose proof (Qfloor_le (x + (1 # 2))) as Hle.
  pose proof (Qlt_floor (x + (1 # 2))) as Hlt.
  rewrite inject_Z_plus in Hlt.
  split.
  - apply (Qplus_le_l _ _ (1 # 2)). ring_simplify.
    ring_simplify in Hle. exact Hle.
  - apply (Qplus_lt_l _ _ (1 # 2)).
    setoid_replace (inject_Z (Qfloor (x + (1 # 2))) + (1 # 2) + (1 # 2))%Q
      with (inject_Z (Qfloor (x + (1 # 2))) + inject_Z 1)%Q by ring.
    exact Hlt.
Qed.

(** An integer is its own rounding. *)
Lemma Math_round_integer (z : Z) : Math_round (inject_Z z) = z.
Proof.
  unfold Math_round.
  pose proof (Qfloor_le (inject_Z z + (1 # 2))) as Hle.
  pose proof (Qlt_floor (inject_Z z + (1 # 2))) as Hlt.
  set (r := Qfloor (inject_Z z + (1 # 2))) in *.
  assert (H1 : (inject_Z r < inject_Z (z + 1))%Q).
  { eapply Qle_lt_trans; [exact Hle|].
    rewrite inject_Z_plus. apply Qplus_lt_r. reflexivity. }
  assert (H2 : (inject_Z z < inject_Z (r + 1))%Q).
  { eapply Qle_lt_trans; [|exact Hlt].
    rewrite <- (Qplus_0_r (inject_Z z)) at 1.
    apply Qplus_le_r. discriminate. }
  rewrite <- Zlt_Qlt in H1, H2. lia.
Qed.

(** Every row prints the rounding of its value, followed by a percent sign. *)
Lemma confidenceRow_percent (mainMaterial key : string) (value : Q) :
  percent_text (confidenceRow mainMaterial (key, value))
  = (string_of_Z (Math_round value) ++ "%")%string.
Proof. reflexivity. Qed.

(** A row is highlighted exactly when its key is the main material, letter
    case apart; otherwise it is plain. *)
Lemma confidenceRow_highlighted (mainMaterial key : string) (value : Q) :
  highlighted (confidenceRow mainMaterial (key, value))
  = String.eqb (JsString.toLowerCase key) (JsString.toLowerCase mainMaterial)
  /\ plain (confidenceRow mainMaterial (key, value))
     = negb (String.eqb (JsString.toLowerCase key)
               (JsString.toLowerCase mainMaterial)).
Proof.
  unfold highlighted, plain, confidenceRow. cbn [bar_class label_class].
  destruct (String.eqb (JsString.toLowerCase key)
              (JsString.toLowerCase mainMaterial)); split; reflexivity.
Qed.

(** The service's answer for the example, as text, parses to the analysis
    of the example, which has the [WasteAnalysis] type. *)
Example parse_plastic_analysis :
  Json.parse
    (quoted "{'mainMaterial':'Plastic','confidences':{'glass':10,'plastic':70,'paper':10,'cardboard':5,'other':5},'recyclingTip':'Rinse it.','isRecyclable':true}")
  = Some (plastic_analysis "Rinse it." true)
  /\ WasteAnalysis.has_type (plastic_analysis "Rinse it." true) = true.
Proof. split; reflexivity. Qed.

(** Claim C9. In the result state, with an image to show, the analysis with
    confidences glass 10, plastic 70, paper 10, cardboard 5, other 5 and
    main material [Plastic] is rendered as a card whose primary detection
    reads [Plastic], whose five rows show 10%, 70%, 10%, 5%, 5% (each the
    rounding of its confidence to the nearest integer), and in which the
    plastic row alone carries the distinguished styling, the other four the
    plain one. *)
Theorem render_plastic_result (recyclingTip : string) (isRecyclable : bool)
    (c : ascii) (src : string) (w : World) :
  let shown :=
    with_state AppState.result
      (with_analysis (Some (plastic_analysis recyclingTip isRecyclable))
         (with_image (Some (String c src)) w)) in
  exists card,
    option_map result_card (scan_view (render shown)) = Some (Card card)
    /\ primary_detection card = "Plastic"
    /\ map row_key (rows card)
       = ["glass"; "plastic"; "paper"; "cardboard"; "other"]
    /\ map percent_text (rows card) = ["10%"; "70%"; "10%"; "5%"; "5%"]
    /\ map percent_text (rows card)
       = map (fun value => (string_of_Z (Math_round value) ++ "%")%string)
           [10; 70; 10; 5; 5]%Q
    /\ map highlighted (rows card) = [false; true; false; false; false]
    /\ map plain (rows card) = [true; false; true; true; true]
    /\ String.eqb bar_highlight bar_plain = false
    /\ recycling_advice card = recyclingTip.
Proof.
  intros shown. subst shown.
  unfold render. cbn [scan_view state image analysis with_state with_analysis
                        with_image AppState.eqb orb JsString.truthy
                        plastic_analysis truthy_value option_map result_card].
  unfold resultCard. cbn [Json.prop Json.lookup String.eqb Ascii.eqb Bool.eqb
                            plastic_analysis number_entries].
  eexists. split; [reflexivity|].
  cbn [primary_detection rows recycling_advice map].
  repeat split.
Qed.

(* ================================================================== *)
(** * Further properties of the controller *)
(* ================================================================== *)

(** X1. When the camera is granted, [startCamera] ends in the capturing
    state with the granted stream attached to the viewfinder and its tracks
    live; no error is recorded. *)
Theorem startCamera_granted (stream : MediaStream) (w : World) :
  let run := startCamera (Fulfilled stream) w in
  threw run = false
  /\ state (final run) = AppState.capturing
  /\ option_map srcObject (videoRef (final run)) = Some (Some stream)
  /\ video_active (final run) = true
  /\ liveTracks (final run) = liveTracks w ++ getTracks stream
  /\ error (final run) = error w
  /\ map state (frames_of run) = [AppState.capturing; AppState.capturing].
Proof.
  intros run. subst run. unfold startCamera, getUserMedia. run_js.
  cbn [videoRef commit with_state with_videoRef with_canvasRef with_liveTracks
       state].
  destruct (videoRef w) as [video|]; repeat split.
Qed.

(** X2. When the classification call returns [v], [processAnalysis] ends in
    the result state with [v] stored as the analysis and no error; and
    whatever the outcome, entering the analyzing state has sent exactly one
    request, for the image at hand. *)
Theorem processAnalysis_success (base64 : string)
    (service : Settled GenerateContentResponse) (w : World) (v : Json.value) :
  let calling := with_error None (with_state AppState.analyzing w) in
  returned (geminiService.analyzeWaste base64 service calling) = Some v ->
  let run := processAnalysis base64 service w in
  threw run = false
  /\ map state (frames_of run)
     = [AppState.analyzing; AppState.analyzing; AppState.result]
  /\ analysis (final run) = Some v
  /\ error (final run) = None
  /\ image (final run) = image w
  /\ requests (final run) = requests w ++ [geminiService.request base64].
Proof.
  intros calling Hreturned run. subst run calling.
  rewrite analyzeWaste_run in Hreturned.
  rewrite processAnalysis_run.
  destruct (answer service) as [e|v']; [discriminate|].
  injection Hreturned as ->. repeat split.
Qed.

Lemma processAnalysis_success_witness :
  let service := Fulfilled {| response_text := Some "{}" |} in
  let run := processAnalysis "data:image/jpeg;base64,TWFu" service initial in
  threw run = false
  /\ map state (frames_of run)
     = [AppState.analyzing; AppState.analyzing; AppState.result]
  /\ analysis (final run) = Some (Json.Obj [])
  /\ error (final run) = None
  /\ image (final run) = image initial
  /\ requests (final run)
     = requests initial ++ [geminiService.request "data:image/jpeg;base64,TWFu"].
Proof.
  exact (processAnalysis_success "data:image/jpeg;base64,TWFu"
           (Fulfilled {| response_text := Some "{}" |})
           initial (Json.Obj []) eq_refl).
Defined.

(** X3. Cancelling from the viewfinder: [reset] stops every track of the
    stream attached to it, and once React has committed the idle state the
    viewfinder is gone. *)
Theorem reset_releases_camera (w : World) (video : HTMLVideoElement)
    (stream : MediaStream) :
  videoRef w = Some video ->
  srcObject video = Some stream ->
  state (final (reset w)) = AppState.idle
  /\ videoRef (final (reset w)) = None
  /\ stream_active (final (reset w)) = false
  /\ Forall (fun track => ~ In track (liveTracks (final (reset w))))
       (getTracks stream).
Proof.
  intros Hvideo Hstream. rewrite reset_run.
  split; [reflexivity|]. split; [reflexivity|]. split; [reflexivity|].
  cbn [final commit liveTracks with_state with_error with_analysis with_image
       with_liveTracks with_videoRef with_canvasRef].
  unfold after_stop. rewrite Hvideo, Hstream.
  apply Forall_forall. intros track Hin. apply stop_all_not_live, Hin.
Qed.

Lemma reset_releases_camera_witness :
  state (final (reset filming)) = AppState.idle
  /\ videoRef (final (reset filming)) = None
  /\ stream_active (final (reset filming)) = false
  /\ Forall (fun track => ~ In track (liveTracks (final (reset filming))))
       [1; 2]%nat.
Proof.
  exact (reset_releases_camera filming
           {| srcObject := Some {| getTracks := [1; 2]%nat |};
              videoWidth := 2; videoHeight := 1;
              currentFrame := Some ["M"; "a"; "n"; "M"; "a"; "n"]%byte |}
           {| getTracks := [1; 2]%nat |} eq_refl eq_refl).
Defined.

(** X5. After a denied camera request made with no image stored (as from the
    idle screen), the error state renders none of the three blocks of
    [<main>], and no control is offered: the stored error message is not
    displayed. *)
Theorem camera_error_is_not_rendered (e : JsError) (w : World) :
  JsString.truthy_opt (image w) = false ->
  let after := final (startCamera (Rejected e) w) in
  state after = AppState.error
  /\ error after = Some "Unable to access camera. Please check permissions."
  /\ render after
     = {| idle_view := None; camera_view := None; scan_view := None |}
  /\ actions (render after) = [].
Proof.
  intros Himage after. subst after.
  split; [reflexivity|]. split; [reflexivity|].
  assert (Hrender :
    render (final (startCamera (Rejected e) w))
    = {| idle_view := None; camera_view := None; scan_view := None |}).
  { unfold render. cbn. unfold JsString.truthy_opt in Himage.
    destruct (image w) as [src|]; [|reflexivity].
    rewrite Himage. reflexivity. }
  rewrite Hrender. split; reflexivity.
Qed.

Lemma camera_error_is_not_rendered_witness :
  let e := {| name := "NotAllowedError"; message := "Permission denied" |} in
  let after := final (startCamera (Rejected e) initial) in
  state after = AppState.error
  /\ error after = Some "Unable to access camera. Please check permissions."
  /\ render after
     = {| idle_view := None; camera_view := None; scan_view := None |}
  /\ actions (render after) = [].
Proof.
  exact (camera_error_is_not_rendered
           {| name := "NotAllowedError"; message := "Permission denied" |}
           initial eq_refl).
Defined.

(** X6. An uploaded image file of any type is sent under the media type
    [image/jpeg]: the image stored and shown is the data URL of the file,
    whose header names the type of the file, while the one request sent
    carries the bytes of the file, in base64, declared as [image/jpeg]. *)
Theorem upload_is_sent_as_jpeg (f : File) (others : list File)
    (service : Settled GenerateContentResponse) (w : World) :
  image_file f = true ->
  let run := handleFileUpload {| files := Some (f :: others) |} service w in
  exists sent_request,
    requests (final run) = requests w ++ [sent_request]
    /\ inlineData_mimeType sent_request = "image/jpeg"
    /\ inlineData_data sent_request = Some (Base64.encode (contents f))
    /\ image (final run)
       = Some ("data:" ++ type f ++ ";base64," ++ Base64.encode (contents f))%string.
Proof.
  intros Hfile run. subst run.
  apply andb_prop in Hfile as [Hprefix Hmime].
  exists (geminiService.request (readAsDataURL f)).
  rewrite handleFileUpload_run, processAnalysis_run.
  assert (Himage : readAsDataURL f
                   = ("data:" ++ type f ++ ";base64,"
                      ++ Base64.encode (contents f))%string).
  { unfold readAsDataURL. destruct (type f); [discriminate Hprefix | reflexivity]. }
  split; [destruct (answer service); reflexivity|].
  split; [reflexivity|].
  split; [apply request_body, Hmime|].
  rewrite <- Himage. destruct (answer service); reflexivity.
Qed.

Lemma upload_is_sent_as_jpeg_witness :
  let png := {| type := "image/png"; contents := ["M"; "a"; "n"]%byte |} in
  let run := handleFileUpload {| files := Some [png] |} plastic_answer initial in
  exists sent_request,
    requests (final run) = requests initial ++ [sent_request]
    /\ inlineData_mimeType sent_request = "image/jpeg"
    /\ inlineData_data sent_request = Some "TWFu"
    /\ image (final run) = Some "data:image/png;base64,TWFu".
Proof.
  exact (upload_is_sent_as_jpeg
           {| type := "image/png"; contents := ["M"; "a"; "n"]%byte |}
           [] plastic_answer initial eq_refl).
Defined.

(* ================================================================== *)
(** * The event loop *)
(* ================================================================== *)

Lemma bytes_eqb_refl (a : list byte) : bytes_eqb a a = true.
Proof.
  induction a as [|x a IH]; [reflexivity|].
  cbn. rewrite IH, andb_true_r. destruct x; reflexivity.
Qed.

Lemma Task_eqb_refl (t : Task) : Task_eqb t t = true.
Proof.
  destruct t as [|f|b]; cbn; [reflexivity| |apply String.eqb_refl].
  unfold File_eqb. rewrite String.eqb_refl, bytes_eqb_refl. reflexivity.
Qed.

Lemma settle_only_task (t : Task) :
  existsb (Task_eqb t) [t] = true /\ settle_task t [t] = [].
Proof. cbn. rewrite Task_eqb_refl. split; reflexivity. Qed.

(** The answer of [analyzeWaste], once the service has settled. *)
Lemma analyzeWaste_settled_run (service : Settled GenerateContentResponse)
    (w : World) :
  analyzeWaste_settled service w
  = match answer service with
    | inl e => Throw e (logged e w) []
    | inr v => Ok v w []
    end.
Proof.
  unfold answer, analyzeWaste_settled, settled, geminiService.JSON_parse.
  destruct service as [[[text|]]|e]; [|reflexivity|reflexivity].
  destruct text as [|c rest]; [reflexivity|].
  run_js. destruct (Json.parse (String c rest)); reflexivity.
Qed.

Lemma processAnalysis_settled_run (service : Settled GenerateContentResponse)
    (w : World) :
  processAnalysis_settled service w
  = match answer service with
    | inl e =>
        Ok tt
          (with_state AppState.error
             (with_error (Some analysis_failed) (logged e w))) []
    | inr v =>
        Ok tt (with_state AppState.result (with_analysis (Some v) w)) []
    end.
Proof.
  unfold processAnalysis_settled. run_js. rewrite analyzeWaste_settled_run.
  destruct (answer service); reflexivity.
Qed.

Lemma capturePhoto_begin_run
    (encode_image : string -> Q -> HTMLCanvasElement -> list byte)
    (w : World) (video : HTMLVideoElement) (canvas : HTMLCanvasElement) :
  videoRef w = Some video ->
  canvasRef w = Some canvas ->
  capturePhoto_begin encode_image w
  = if context2d canvas then
      let dataUrl :=
        toDataURL encode_image "image/jpeg" (85 # 100) (snapshot video canvas) in
      Ok (Some dataUrl)
        (with_requests
           (requests w ++ [geminiService.request dataUrl])
           (with_error None
              (with_state AppState.analyzing
                 (captured dataUrl (snapshot video canvas) w))))
        []
    else
      Ok None
        (with_canvasRef
           (Some (resize (videoWidth video) (videoHeight video) canvas)) w)
        [].
Proof.
  intros Hvideo Hcanvas.
  unfold capturePhoto_begin, processAnalysis_begin. run_js.
  rewrite Hvideo, Hcanvas. cbn [context2d resize].
  destruct (context2d canvas); [|reflexivity].
  rewrite stopCamera_run. cbn [app].
  unfold captured, snapshot, after_stop.
  cbn [videoRef liveTracks with_image with_canvasRef].
  rewrite Hvideo. reflexivity.
Qed.

Lemma capturePhoto_begin_unmounted
    (encode_image : string -> Q -> HTMLCanvasElement -> list byte) (w : World) :
  videoRef w = None \/ canvasRef w = None ->
  capturePhoto_begin encode_image w = Ok None w [].
Proof.
  intros [H|H]; unfold capturePhoto_begin; run_js; rewrite H.
  - reflexivity.
  - destruct (videoRef w); reflexivity.
Qed.

(** X7. Taken back to back, the turns of an event — the press, then the
    settlement of each thing its handler awaits — leave the loop with
    nothing waiting, in the very world the whole handler ends in. *)
Theorem turns_agree_with_handler
    (encode_image : string -> Q -> HTMLCanvasElement -> list byte)
    (ev : Event) (w : World) :
  commit w = w ->
  offered (handler_of ev) w = true ->
  turns encode_image (turns_of encode_image ev w)
    {| now := w; waiting := [] |}
  = Some {| now := final (handle encode_image ev w); waiting := [] |}.
Proof.
  intros Hcommitted Hoffered.
  destruct ev as [granted| |e service|service|];
    cbn [handler_of] in Hoffered; cbn [turns_of handle].
  - cbn [turns turn now waiting]. rewrite Hoffered.
    cbn [turns turn now waiting after app existsb Task_eqb orb settle_task].
    unfold after. do 2 f_equal.
    unfold startCamera, startCamera_settled, startCamera_begin, getUserMedia,
      settled.
    destruct granted as [stream|err]; run_js; cbn.
    + destruct (videoRef w), (canvasRef w); reflexivity.
    + destruct (videoRef w), (canvasRef w); reflexivity.
  - cbn [turns turn now]. rewrite Hoffered. cbn [final ret].
    rewrite Hcommitted. reflexivity.
  - destruct e as [[[|file others]|]]; cbn [selected_file files nth_error].
    + cbn [turns turn now selected_file files nth_error]. rewrite Hoffered.
      unfold after. cbn [ret world_of final handleFileUpload files nth_error].
      reflexivity.
    + cbn [turns turn now waiting selected_file files nth_error].
      rewrite Hoffered.
      cbn [after now waiting app ret world_of].
      destruct (settle_only_task (reading file)) as [-> ->].
      cbn [app after now waiting].
      destruct (settle_only_task (classifying (readAsDataURL file))) as [-> ->].
      unfold after. do 2 f_equal.
      rewrite handleFileUpload_run, processAnalysis_run.
      rewrite processAnalysis_settled_run.
      unfold read_ended, processAnalysis_begin, analyzing_world, sent. run_js.
      generalize (readAsDataURL file). intros url.
      destruct (answer service) as [err|v].
      * destruct w as [st im an er vr cr lt co rq].
        unfold logged, commit. cbn -[String.append app].
        destruct cr; reflexivity.
      * destruct w as [st im an er vr cr lt co rq].
        unfold logged, commit. cbn -[String.append app].
        destruct cr; reflexivity.
    + cbn [turns turn now selected_file files nth_error]. rewrite Hoffered.
      unfold after. cbn [ret world_of final handleFileUpload files nth_error].
      reflexivity.
  - destruct (videoRef w) as [video|] eqn:Hvideo.
    + destruct (canvasRef w) as [canvas|] eqn:Hcanvas.
      * rewrite (capturePhoto_run encode_image service w video canvas Hvideo Hcanvas).
        destruct (context2d canvas) eqn:Hctx.
        -- cbn [turns turn now waiting]. rewrite Hoffered.
           rewrite (capturePhoto_begin_run encode_image w video canvas Hvideo Hcanvas).
           rewrite Hctx. cbn [returned app after now waiting].
           destruct (settle_only_task
                       (classifying
                          (toDataURL encode_image "image/jpeg" (85 # 100)
                             (snapshot video canvas)))) as [-> ->].
           unfold after. do 2 f_equal.
           rewrite processAnalysis_run, processAnalysis_settled_run.
           unfold analyzing_world, sent.
           destruct (answer service); reflexivity.
        -- cbn [turns turn now waiting]. rewrite Hoffered.
           rewrite (capturePhoto_begin_run encode_image w video canvas Hvideo Hcanvas).
           rewrite Hctx. reflexivity.
      * cbn [turns turn now waiting]. rewrite Hoffered.
        rewrite capturePhoto_begin_unmounted by (right; exact Hcanvas).
        rewrite capturePhoto_unmounted by (right; exact Hcanvas).
        reflexivity.
    + cbn [turns turn now waiting]. rewrite Hoffered.
      rewrite capturePhoto_begin_unmounted by (left; exact Hvideo).
      rewrite capturePhoto_unmounted by (left; exact Hvideo).
      reflexivity.
  - cbn [turns turn now waiting]. rewrite Hoffered.
    rewrite reset_run. reflexivity.
Qed.

Lemma turns_agree_with_handler_witness :
  let png := {| type := "image/png"; contents := ["M"; "a"; "n"]%byte |} in
  let ev :=
    change_fileInput {| files := Some [png] |}
      (Fulfilled {| response_text := Some "{}" |}) in
  turns silent_encoder (turns_of silent_encoder ev initial) start
  = Some {| now := final (handle silent_encoder ev initial); waiting := [] |}.
Proof.
  exact (turns_agree_with_handler silent_encoder
           (change_fileInput
              {| files := Some [{| type := "image/png";
                                   contents := ["M"; "a"; "n"]%byte |}] |}
              (Fulfilled {| response_text := Some "{}" |}))
           initial eq_refl eq_refl).
Defined.

Lemma Handler_eqb_eq (g h : Handler) : Handler_eqb g h = true -> g = h.
Proof. destruct g, h; (reflexivity || discriminate). Qed.

Lemma offered_In (h : Handler) (w : World) :
  offered h w = true -> In h (actions (render w)).
Proof.
  unfold offered. intros H. apply existsb_exists in H as [g [Hin Heq]].
  apply Handler_eqb_eq in Heq. subst g. exact Hin.
Qed.

(** While analyzing, no control is on screen. *)
Lemma render_analyzing_offers_nothing (w : World) :
  state w = AppState.analyzing -> actions (render w) = [].
Proof.
  intros H. unfold render, actions. cbn. rewrite H. cbn.
  destruct (image w) as [src|]; [|reflexivity].
  destruct (JsString.truthy src); reflexivity.
Qed.

(** Where each control is on screen. *)
Lemma offered_state (h : Handler) (w : World) :
  offered h w = true ->
  match h with
  | h_startCamera | h_openFilePicker | h_handleFileUpload =>
      state w = AppState.idle
  | h_capturePhoto => state w = AppState.capturing
  | h_reset =>
      state w = AppState.capturing \/ state w = AppState.result
      \/ state w = AppState.error
  end.
Proof.
  intros Hoffered. apply offered_In in Hoffered.
  destruct (state w) eqn:Hstate.
  - unfold render, actions in Hoffered. cbn in Hoffered.
    rewrite Hstate in Hoffered. cbn in Hoffered.
    destruct Hoffered as [<-|[<-|[<-|[]]]]; reflexivity.
  - unfold render, actions in Hoffered. cbn in Hoffered.
    rewrite Hstate in Hoffered. cbn in Hoffered.
    destruct Hoffered as [<-|[<-|[]]]; auto.
  - rewrite (render_analyzing_offers_nothing w Hstate) in Hoffered.
    destruct Hoffered.
  - pose proof (render_offers_reset_only w (or_introl Hstate)) as Hall.
    rewrite Forall_forall in Hall. rewrite (Hall h Hoffered). auto.
  - pose proof (render_offers_reset_only w (or_intror Hstate)) as Hall.
    rewrite Forall_forall in Hall. rewrite (Hall h Hoffered). auto.
Qed.

(** In a committed world the viewfinder is mounted exactly in the capturing
    state. *)
Lemma committed_viewfinder (w : World) :
  commit w = w ->
  match state w with
  | AppState.capturing => exists video, videoRef w = Some video
  | _ => videoRef w = None
  end.
Proof.
  intros H. rewrite <- H. unfold commit. cbn.
  destruct (state w); try reflexivity.
  destruct (videoRef w) as [video|]; eexists; reflexivity.
Qed.

Lemma readAsDataURL_truthy (file : File) :
  JsString.truthy (readAsDataURL file) = true.
Proof. reflexivity. Qed.

Lemma toDataURL_truthy
    (encode_image : string -> Q -> HTMLCanvasElement -> list byte)
    (type : string) (quality : Q) (canvas : HTMLCanvasElement) :
  JsString.truthy (toDataURL encode_image type quality canvas) = true.
Proof.
  unfold toDataURL.
  destruct (Nat.eqb (width canvas) 0 || Nat.eqb (height canvas) 0)%bool;
    reflexivity.
Qed.

Lemma settle_other_task (t s : Task) (ts : list Task) :
  Task_eqb t s = false -> In s ts -> In s (settle_task t ts).
Proof.
  intros Hneq. induction ts as [|x ts IH]; [intros []|].
  intros [->|Hin]; cbn.
  - rewrite Hneq. left. reflexivity.
  - destruct (Task_eqb t x); [exact Hin | right; exact (IH Hin)].
Qed.

Lemma startCamera_settled_run (granted : Settled MediaStream) (w : World) :
  startCamera_settled granted w
  = match granted with
    | Fulfilled stream =>
        Ok tt
          (with_videoRef
             (option_map (set_srcObject (Some stream)) (videoRef w))
             (with_liveTracks (liveTracks w ++ getTracks stream) w))
          []
    | Rejected e =>
        Ok tt
          (with_state AppState.error
             (with_error
                (Some "Unable to access camera. Please check permissions.")
                (with_console
                   (console w
                    ++ [("Camera error:" ++ " " ++ name e ++ ": "
                         ++ message e)%string]) w)))
          []
    end.
Proof.
  unfold startCamera_settled, settled. destruct granted as [stream|e].
  - run_js. cbn [videoRef with_liveTracks].
    destruct w as [st im an er [video|] cr lt co rq]; reflexivity.
  - reflexivity.
Qed.

Lemma read_ended_run (file : File) (w : World) :
  read_ended file w
  = Ok (readAsDataURL file)
      (with_requests
         (requests w ++ [geminiService.request (readAsDataURL file)])
         (with_error None
            (with_state AppState.analyzing
               (with_image (Some (readAsDataURL file)) w))))
      [].
Proof. reflexivity. Qed.

Lemma read_failed_run (w : World) :
  read_failed w
  = Ok tt
      (with_state AppState.error
         (with_error (Some analysis_failed)
            (logged null_has_no_split
               (with_error None
                  (with_state AppState.analyzing (with_image None w))))))
      [].
Proof. reflexivity. Qed.

(** A stream is on the viewfinder only while capturing, and a frame
    changes nothing but the picture of the viewfinder. *)
Lemma frame_delivered_run (width height : nat) (pixels : Bitmap) (w : World) :
  commit w = w ->
  stream_active w = true ->
  exists video,
    videoRef w = Some video
    /\ state w = AppState.capturing
    /\ world_of (frame_delivered width height pixels w)
       = with_videoRef (Some (playing width height pixels video)) w
    /\ commit (with_videoRef (Some (playing width height pixels video)) w)
       = with_videoRef (Some (playing width height pixels video)) w.
Proof.
  intros Hcommitted Hactive.
  pose proof (committed_viewfinder w Hcommitted) as Hview.
  unfold stream_active in Hactive.
  destruct w as [st im an er [video|] cr lt co rq]; [|discriminate Hactive].
  cbn in Hview. exists video.
  destruct st; try discriminate Hview.
  split; [reflexivity|]. split; [reflexivity|]. split; [reflexivity|].
  unfold commit in *. cbn in *.
  injection Hcommitted as Hcanvas. rewrite Hcanvas. reflexivity.
Qed.

(** Every turn keeps the loop consistent. *)
Lemma consistent_turn
    (encode_image : string -> Q -> HTMLCanvasElement -> list byte)
    (t : Turn) (l l' : Loop) :
  consistent l -> turn encode_image t l = Some l' -> consistent l'.
Proof.
  intros (Hcommitted & (canvas & Hcanvas & Hctx) & Hidle & Hanalyzing
          & Herror) Hturn.
  pose proof (committed_viewfinder (now l) Hcommitted) as Hview.
  destruct t as [h e|granted|file|file|base64 service|width height pixels];
    cbn [turn] in Hturn.
  - destruct (offered h (now l)) eqn:Hoffered; [|discriminate Hturn].
    apply offered_state in Hoffered.
    destruct h.
    + (* the camera is opened *)
      injection Hturn as <-. unfold consistent, after, startCamera_begin.
      cbn [now waiting world_of setState modify].
      split; [apply commit_idempotent|].
      split; [exists canvas; cbn; rewrite Hcanvas; split; [reflexivity | exact Hctx]|].
      cbn. repeat split; other_state.
    + (* the file picker is opened *)
      injection Hturn as <-. unfold consistent.
      split; [exact Hcommitted|].
      split; [exists canvas; split; assumption|].
      split; [exact Hidle|]. split; [exact Hanalyzing | exact Herror].
    + (* a file is selected, or none *)
      assert (Hsame : forall tasks,
                 consistent (after (ret tt (now l)) tasks)).
      { intros tasks. unfold consistent, after. cbn [now waiting world_of ret].
        rewrite Hcommitted.
        split; [exact Hcommitted|].
        split; [exists canvas; auto|].
        split; [exact Hidle|].
        split; [intros H; rewrite Hoffered in H; discriminate H|].
        exact Herror. }
      destruct (selected_file e); injection Hturn as <-; apply Hsame.
    + (* the shutter *)
      rewrite Hoffered in Hview. destruct Hview as [video Hvideo].
      rewrite (capturePhoto_begin_run encode_image (now l) video canvas
                 Hvideo Hcanvas), Hctx in Hturn.
      cbn [returned] in Hturn. injection Hturn as <-.
      unfold consistent, after. cbn [now waiting world_of].
      split; [apply commit_idempotent|].
      split; [eexists; cbn; split; [reflexivity | exact Hctx]|].
      cbn. repeat split; try other_state.
      * apply toDataURL_truthy.
      * eexists. apply in_or_app. right. left. reflexivity.
    + (* reset *)
      injection Hturn as <-. rewrite reset_run.
      unfold consistent, after. cbn [now waiting world_of].
      split; [apply commit_idempotent|].
      split; [exists canvas; cbn; rewrite Hcanvas; split; [reflexivity | exact Hctx]|].
      cbn. repeat split; other_state.
  - (* the camera request settles *)
    destruct (existsb (Task_eqb awaiting_camera) (waiting l)); [|discriminate Hturn].
    injection Hturn as <-. rewrite startCamera_settled_run.
    destruct granted as [stream|err].
    + unfold consistent, after. cbn [now waiting world_of].
      split; [apply commit_idempotent|].
      split; [exists canvas; cbn; rewrite Hcanvas; split; [reflexivity | exact Hctx]|].
      cbn. split; [exact Hidle|].
      split; [|exact Herror].
      intros Hstate. destruct (Hanalyzing Hstate) as [Himage [b Hin]].
      split; [exact Himage|]. exists b.
      apply settle_other_task; [reflexivity | exact Hin].
    + unfold consistent, after. cbn [now waiting world_of].
      split; [apply commit_idempotent|].
      split; [exists canvas; cbn; rewrite Hcanvas; split; [reflexivity | exact Hctx]|].
      cbn. repeat split; other_state.
  - (* a file has been read *)
    destruct (existsb (Task_eqb (reading file)) (waiting l)); [|discriminate Hturn].
    injection Hturn as <-. rewrite read_ended_run.
    unfold consistent, after. cbn [now waiting world_of].
    split; [apply commit_idempotent|].
    split; [exists canvas; cbn; rewrite Hcanvas; split; [reflexivity | exact Hctx]|].
    cbn. repeat split; try other_state.
    eexists. apply in_or_app. right. left. reflexivity.
  - (* the read of a file has failed *)
    destruct (existsb (Task_eqb (reading file)) (waiting l)); [|discriminate Hturn].
    injection Hturn as <-. rewrite read_failed_run.
    unfold consistent, after. cbn [now waiting world_of].
    split; [apply commit_idempotent|].
    split; [exists canvas; cbn; rewrite Hcanvas; split; [reflexivity | exact Hctx]|].
    cbn. repeat split; other_state.
  - (* the classification settles *)
    destruct (existsb (Task_eqb (classifying base64)) (waiting l));
      [|discriminate Hturn].
    injection Hturn as <-. rewrite processAnalysis_settled_run.
    destruct (answer service) as [err|v];
      unfold consistent, after; cbn [now waiting world_of];
      (split; [apply commit_idempotent|]);
      (split; [exists canvas; cbn; rewrite Hcanvas; split; [reflexivity | exact Hctx]|]);
      cbn; repeat split; other_state.
  - (* a frame arrives *)
    destruct (stream_active (now l)) eqn:Hactive; [|discriminate Hturn].
    injection Hturn as <-.
    destruct (frame_delivered_run width height pixels (now l) Hcommitted Hactive)
      as (video & Hvideo & Hstate & Hrun & Hsame).
    unfold consistent, after. cbn [now waiting]. rewrite Hrun, Hsame.
    split; [exact Hsame|].
    split; [exists canvas; split; [exact Hcanvas | exact Hctx]|].
    cbn [state image analysis error with_videoRef].
    repeat split; other_state.
Qed.

Lemma consistent_start : consistent start.
Proof.
  unfold consistent, start. cbn.
  split; [reflexivity|]. split; [eexists; split; reflexivity|].
  repeat split; discriminate.
Qed.

(** The loop stays consistent through every reachable sequence of turns. *)
Lemma consistent_when_reachable
    (encode_image : string -> Q -> HTMLCanvasElement -> list byte) (l : Loop) :
  reachable encode_image l -> consistent l.
Proof.
  induction 1 as [|l l' t _ IH Hturn].
  - exact consistent_start.
  - exact (consistent_turn encode_image t l l' IH Hturn).
Qed.

(** X8. Whatever the order in which the user uses the controls on screen,
    the camera request settles, the file reads end or fail, the
    classifications settle and the camera delivers frames: the idle state
    has image, analysis and error null; the analyzing state has a non-empty
    image and a classification in flight (a failed read stores a null image
    but has reached the error state by the end of its turn); the error
    state has a non-empty message; the canvas is mounted with its 2D
    context; and the committed world is the one the loop is in. *)
Theorem reachable_consistent
    (encode_image : string -> Q -> HTMLCanvasElement -> list byte) (l : Loop) :
  reachable encode_image l ->
  commit (now l) = now l
  /\ (exists canvas, canvasRef (now l) = Some canvas /\ context2d canvas = true)
  /\ (state (now l) = AppState.idle ->
      image (now l) = None /\ analysis (now l) = None /\ error (now l) = None)
  /\ (state (now l) = AppState.analyzing ->
      JsString.truthy_opt (image (now l)) = true
      /\ exists base64, In (classifying base64) (waiting l))
  /\ (state (now l) = AppState.error ->
      JsString.truthy_opt (error (now l)) = true).
Proof.
  intros Hreachable.
  exact (consistent_when_reachable encode_image l Hreachable).
Qed.

Lemma reachable_turns
    (encode_image : string -> Q -> HTMLCanvasElement -> list byte)
    (ts : list Turn) (l l' : Loop) :
  reachable encode_image l ->
  turns encode_image ts l = Some l' ->
  reachable encode_image l'.
Proof.
  revert l. induction ts as [|t ts IH]; intros l Hl Hturns; cbn in Hturns.
  - injection Hturns as <-. exact Hl.
  - destruct (turn encode_image t l) as [l1|] eqn:Hturn; [|discriminate].
    exact (IH l1 (reachable_turn encode_image l l1 t Hl Hturn) Hturns).
Qed.

Lemma unmounted_inactive (w : World) : videoRef w = None -> stream_active w = false.
Proof. intros H. unfold stream_active. rewrite H. reflexivity. Qed.

Lemma nothing_offered_nothing_waiting
    (encode_image : string -> Q -> HTMLCanvasElement -> list byte) (l : Loop) :
  actions (render (now l)) = [] ->
  waiting l = [] ->
  videoRef (now l) = None ->
  stuck encode_image l.
Proof.
  intros Hactions Hwaiting Hvideo t. destruct t; cbn [turn].
  - unfold offered. rewrite Hactions. reflexivity.
  - rewrite Hwaiting. reflexivity.
  - rewrite Hwaiting. reflexivity.
  - rewrite Hwaiting. reflexivity.
  - rewrite Hwaiting. reflexivity.
  - rewrite (unmounted_inactive _ Hvideo). reflexivity.
Qed.

(** X9. In every state the loop can reach — the permission prompt still
    open, the stream attached, frames delivered or not — whenever the
    shutter is on screen the viewfinder and the canvas are mounted and the
    2D context is at hand: pressing it always takes the picture of what the
    viewfinder holds, stores it, sends the request and enters the analyzing
    state, and never runs into the silent no-op of [capturePhoto]. *)
Theorem shutter_always_captures
    (encode_image : string -> Q -> HTMLCanvasElement -> list byte)
    (l : Loop) (e : ChangeEvent) :
  reachable encode_image l ->
  offered h_capturePhoto (now l) = true ->
  exists video canvas l',
    videoRef (now l) = Some video
    /\ canvasRef (now l) = Some canvas
    /\ context2d canvas = true
    /\ turn encode_image (press h_capturePhoto e) l = Some l'
    /\ (let dataUrl :=
          toDataURL encode_image "image/jpeg" (85 # 100) (snapshot video canvas) in
        state (now l') = AppState.analyzing
        /\ image (now l') = Some dataUrl
        /\ requests (now l') = requests (now l) ++ [geminiService.request dataUrl]
        /\ waiting l' = waiting l ++ [classifying dataUrl]).
Proof.
  intros Hreachable Hoffered.
  destruct (consistent_when_reachable encode_image l Hreachable)
    as (Hcommitted & (canvas & Hcanvas & Hctx) & _).
  pose proof (committed_viewfinder (now l) Hcommitted) as Hview.
  rewrite (offered_state _ _ Hoffered) in Hview.
  destruct Hview as [video Hvideo].
  exists video, canvas. eexists.
  split; [exact Hvideo|]. split; [exact Hcanvas|]. split; [exact Hctx|].
  cbn [turn]. rewrite Hoffered.
  rewrite (capturePhoto_begin_run encode_image (now l) video canvas Hvideo Hcanvas).
  rewrite Hctx. cbn [returned].
  split; [reflexivity|]. repeat split.
Qed.

Lemma shutter_always_captures_witness :
  turns raw_encoder camera_films start = Some {| now := filming; waiting := [] |}
  /\ exists video canvas l',
       videoRef filming = Some video
       /\ canvasRef filming = Some canvas
       /\ context2d canvas = true
       /\ turn raw_encoder (press h_capturePhoto {| files := None |})
            {| now := filming; waiting := [] |}
          = Some l'
       /\ (let dataUrl :=
             toDataURL raw_encoder "image/jpeg" (85 # 100) (snapshot video canvas) in
           state (now l') = AppState.analyzing
           /\ image (now l') = Some dataUrl
           /\ requests (now l')
              = requests filming ++ [geminiService.request dataUrl]
           /\ waiting l' = [] ++ [classifying dataUrl]).
Proof.
  split; [reflexivity|].
  exact (shutter_always_captures raw_encoder
           {| now := filming; waiting := [] |}
           {| files := None |}
           (reachable_turns raw_encoder camera_films start _
              (reachable_start raw_encoder) eq_refl)
           eq_refl).
Defined.

(** X10. From the idle screen with nothing in flight, opening the camera
    and having the request denied leaves the component stuck: it is in the
    error state, and no turn is possible any more — no control is on screen
    and nothing is waited for. *)
Theorem camera_denial_is_a_dead_end
    (encode_image : string -> Q -> HTMLCanvasElement -> list byte)
    (l : Loop) (e : ChangeEvent) (denied : JsError) :
  reachable encode_image l ->
  state (now l) = AppState.idle ->
  waiting l = [] ->
  exists l',
    turns encode_image [press h_startCamera e; camera_settles (Rejected denied)] l
    = Some l'
    /\ reachable encode_image l'
    /\ state (now l') = AppState.error
    /\ stuck encode_image l'.
Proof.
  intros Hreachable Hstate Hwaiting.
  destruct (consistent_when_reachable encode_image l Hreachable)
    as (_ & _ & Hidle & _).
  destruct (Hidle Hstate) as (Himage & _ & _).
  assert (Hoffered : offered h_startCamera (now l) = true).
  { unfold offered, render, actions. cbn. rewrite Hstate. reflexivity. }
  assert (Hturns :
    turns encode_image [press h_startCamera e; camera_settles (Rejected denied)] l
    = Some (after (startCamera_settled (Rejected denied)
                     (commit (with_state AppState.capturing (now l)))) [])).
  { cbn [turns turn]. rewrite Hoffered, Hwaiting. reflexivity. }
  eexists. split; [exact Hturns|].
  split; [exact (reachable_turns encode_image _ l _ Hreachable Hturns)|].
  split; [reflexivity|].
  apply nothing_offered_nothing_waiting; [|reflexivity|reflexivity].
  unfold after. cbn [now]. rewrite startCamera_settled_run.
  unfold render, actions. cbn. rewrite Himage. reflexivity.
Qed.

Lemma camera_denial_is_a_dead_end_witness :
  exists l',
    turns silent_encoder
      [press h_startCamera {| files := None |};
       camera_settles (Rejected permission_denied)] start
    = Some l'
    /\ reachable silent_encoder l'
    /\ state (now l') = AppState.error
    /\ stuck silent_encoder l'.
Proof.
  exact (camera_denial_is_a_dead_end silent_encoder start {| files := None |}
           permission_denied (reachable_start silent_encoder) eq_refl eq_refl).
Defined.

Lemma In_stop_all (stopped live : list nat) (t : nat) :
  In t (stop_all stopped live) <-> In t live /\ ~ In t stopped.
Proof.
  rewrite stop_all_filter, filter_In. split; intros [Hlive H]; split; try exact Hlive.
  - intros Hin. apply negb_true_iff in H.
    assert (existsb (Nat.eqb t) stopped = true).
    { apply existsb_exists. exists t. split; [exact Hin | apply Nat.eqb_refl]. }
    congruence.
  - apply negb_true_iff.
    destruct (existsb (Nat.eqb t) stopped) eqn:E; [|reflexivity].
    apply existsb_exists in E as [s [Hin Hs]].
    apply Nat.eqb_eq in Hs. subst s. contradiction.
Qed.

(** X11. When the camera is granted after the user has left the capturing
    screen (the viewfinder is no longer mounted), the stream is attached to
    nothing: the state does not change, the tracks of the stream are live,
    and they stay live through [stopCamera] and [reset], which only stop
    the tracks of a stream on the viewfinder. *)
Theorem late_grant_leaks_the_camera
    (encode_image : string -> Q -> HTMLCanvasElement -> list byte)
    (l : Loop) (stream : MediaStream) :
  reachable encode_image l ->
  existsb (Task_eqb awaiting_camera) (waiting l) = true ->
  state (now l) <> AppState.capturing ->
  exists l',
    turn encode_image (camera_settles (Fulfilled stream)) l = Some l'
    /\ state (now l') = state (now l)
    /\ videoRef (now l') = None
    /\ video_active (now l') = false
    /\ Forall (fun track => In track (liveTracks (now l'))) (getTracks stream)
    /\ Forall (fun track => In track (liveTracks (world_of (stopCamera (now l')))))
         (getTracks stream)
    /\ Forall (fun track => In track (liveTracks (final (reset (now l')))))
         (getTracks stream).
Proof.
  intros Hreachable Hwaiting Hstate.
  destruct (consistent_when_reachable encode_image l Hreachable)
    as (Hcommitted & _).
  pose proof (committed_viewfinder (now l) Hcommitted) as Hview.
  assert (Hunmounted : videoRef (now l) = None).
  { destruct (state (now l)); try exact Hview. contradiction Hstate. reflexivity. }
  eexists. cbn [turn]. rewrite Hwaiting.
  split; [reflexivity|].
  unfold after. cbn [now]. rewrite startCamera_settled_run. cbn [world_of].
  assert (Hlive : Forall (fun track => In track (liveTracks (now l) ++ getTracks stream))
                    (getTracks stream)).
  { apply Forall_forall. intros track Hin. apply in_or_app. right. exact Hin. }
  split; [reflexivity|].
  split; [cbn; destruct (state (now l)); try reflexivity; contradiction Hstate; reflexivity|].
  split; [unfold video_active; cbn; destruct (state (now l)); try reflexivity;
          contradiction Hstate; reflexivity|].
  split; [exact Hlive|].
  assert (Hgone :
    videoRef
      (commit
         (with_videoRef
            (option_map (set_srcObject (Some stream)) (videoRef (now l)))
            (with_liveTracks (liveTracks (now l) ++ getTracks stream) (now l))))
    = None).
  { cbn. destruct (state (now l)); try reflexivity.
    contradiction Hstate. reflexivity. }
  split.
  - rewrite stopCamera_run. cbn [world_of]. unfold after_stop.
    rewrite Hgone. exact Hlive.
  - rewrite reset_run. cbn [final]. unfold after_stop.
    rewrite Hgone. exact Hlive.
Qed.

Lemma late_grant_leaks_the_camera_witness :
  exists l',
    turn silent_encoder (camera_settles (Fulfilled {| getTracks := [1; 2]%nat |}))
      {| now := initial; waiting := [awaiting_camera] |}
    = Some l'
    /\ state (now l') = state initial
    /\ videoRef (now l') = None
    /\ video_active (now l') = false
    /\ Forall (fun track => In track (liveTracks (now l'))) [1; 2]%nat
    /\ Forall (fun track => In track (liveTracks (world_of (stopCamera (now l')))))
         [1; 2]%nat
    /\ Forall (fun track => In track (liveTracks (final (reset (now l')))))
         [1; 2]%nat.
Proof.
  refine (late_grant_leaks_the_camera silent_encoder
            {| now := initial; waiting := [awaiting_camera] |}
            {| getTracks := [1; 2]%nat |}
            (reachable_turns silent_encoder cancelled_prompt start _
               (reachable_start silent_encoder) eq_refl)
            eq_refl _).
  discriminate.
Defined.

(** X12. When a classification settles successfully after the user has
    gone back to the idle screen, the controller enters the result state
    with no image stored: the analysis is kept but nothing is rendered and
    no control is offered. *)
Theorem late_response_shows_nothing
    (encode_image : string -> Q -> HTMLCanvasElement -> list byte)
    (l : Loop) (base64 : string)
    (service : Settled GenerateContentResponse) (v : Json.value) :
  reachable encode_image l ->
  existsb (Task_eqb (classifying base64)) (waiting l) = true ->
  state (now l) = AppState.idle ->
  answer service = inr v ->
  exists l',
    turn encode_image (classification_settles base64 service) l = Some l'
    /\ state (now l') = AppState.result
    /\ analysis (now l') = Some v
    /\ image (now l') = None
    /\ render (now l')
       = {| idle_view := None; camera_view := None; scan_view := None |}
    /\ actions (render (now l')) = []
    /\ (settle_task (classifying base64) (waiting l) = [] ->
        stuck encode_image l').
Proof.
  intros Hreachable Hwaiting Hstate Hanswer.
  destruct (consistent_when_reachable encode_image l Hreachable)
    as (_ & _ & Hidle & _).
  destruct (Hidle Hstate) as (Himage & _ & _).
  eexists. cbn [turn]. rewrite Hwaiting.
  split; [reflexivity|].
  unfold after. cbn [now waiting].
  rewrite processAnalysis_settled_run, Hanswer. cbn [world_of].
  assert (Hrender :
    render (commit (with_state AppState.result (with_analysis (Some v) (now l))))
    = {| idle_view := None; camera_view := None; scan_view := None |}).
  { unfold render. cbn. rewrite Himage. reflexivity. }
  split; [reflexivity|]. split; [reflexivity|]. split; [exact Himage|].
  split; [exact Hrender|].
  split; [rewrite Hrender; reflexivity|].
  intros Hnone. apply nothing_offered_nothing_waiting.
  - cbn [now]. rewrite Hrender. reflexivity.
  - exact Hnone.
  - reflexivity.
Qed.

Lemma late_response_shows_nothing_witness :
  let service := Fulfilled {| response_text := Some "{}" |} in
  exists l0 l',
    turns silent_encoder (retried_during_classification a_png permission_denied)
      start = Some l0
    /\ turn silent_encoder
         (classification_settles (readAsDataURL a_png) service) l0 = Some l'
    /\ state (now l') = AppState.result
    /\ analysis (now l') = Some (Json.Obj [])
    /\ image (now l') = None
    /\ render (now l')
       = {| idle_view := None; camera_view := None; scan_view := None |}
    /\ actions (render (now l')) = []
    /\ (settle_task (classifying (readAsDataURL a_png)) (waiting l0) = [] ->
        stuck silent_encoder l').
Proof.
  intros service.
  destruct (turns silent_encoder
              (retried_during_classification a_png permission_denied) start)
    as [l0|] eqn:Hturns; [|discriminate Hturns].
  exists l0.
  assert (Hl0 : l0 = {| now := now l0; waiting := [classifying (readAsDataURL a_png)] |}).
  { vm_compute in Hturns. injection Hturns as <-. reflexivity. }
  assert (Hidle : state (now l0) = AppState.idle).
  { vm_compute in Hturns. injection Hturns as <-. reflexivity. }
  assert (Hwaiting : existsb (Task_eqb (classifying (readAsDataURL a_png)))
                       (waiting l0) = true).
  { rewrite Hl0. reflexivity. }
  destruct (late_response_shows_nothing silent_encoder l0
              (readAsDataURL a_png) service (Json.Obj [])
              (reachable_turns silent_encoder _ start l0
                 (reachable_start silent_encoder) Hturns)
              Hwaiting Hidle eq_refl)
    as [l' H].
  exists l'. split; [reflexivity | exact H].
Defined.

(** X21. When the read of a selected file fails, the callback stores a
    null image and hands null to the analysis: no request is sent, the
    [TypeError] of the split is logged, and by the end of the turn the
    controller is in the error state with its message stored but no image,
    so nothing is rendered and no control is offered; with nothing else in
    flight the component is stuck. *)
Theorem failed_read_is_a_dead_end
    (encode_image : string -> Q -> HTMLCanvasElement -> list byte)
    (l : Loop) (file : File) :
  reachable encode_image l ->
  existsb (Task_eqb (reading file)) (waiting l) = true ->
  exists l',
    turn encode_image (read_fails file) l = Some l'
    /\ reachable encode_image l'
    /\ state (now l') = AppState.error
    /\ error (now l') = Some analysis_failed
    /\ image (now l') = None
    /\ requests (now l') = requests (now l)
    /\ console (now l')
       = console (now l)
         ++ [("Gemini Analysis Error: TypeError: "
              ++ message null_has_no_split)%string]
    /\ render (now l')
       = {| idle_view := None; camera_view := None; scan_view := None |}
    /\ (settle_task (reading file) (waiting l) = [] -> stuck encode_image l').
Proof.
  intros Hreachable Hwaiting.
  assert (Hturn :
    turn encode_image (read_fails file) l
    = Some (after (read_failed (now l)) (settle_task (reading file) (waiting l)))).
  { cbn [turn]. rewrite Hwaiting. reflexivity. }
  eexists. split; [exact Hturn|].
  split; [exact (reachable_turn encode_image l _ _ Hreachable Hturn)|].
  unfold after. cbn [now waiting]. rewrite read_failed_run. cbn [world_of].
  split; [reflexivity|]. split; [reflexivity|]. split; [reflexivity|].
  split; [reflexivity|]. split; [reflexivity|]. split; [reflexivity|].
  intros Hnone. apply nothing_offered_nothing_waiting;
    [reflexivity | exact Hnone | reflexivity].
Qed.

Lemma failed_read_is_a_dead_end_witness :
  exists l',
    turns silent_encoder
      [press h_handleFileUpload {| files := Some [a_png] |}; read_fails a_png]
      start
    = Some l'
    /\ state (now l') = AppState.error
    /\ image (now l') = None
    /\ requests (now l') = []
    /\ render (now l')
       = {| idle_view := None; camera_view := None; scan_view := None |}
    /\ stuck silent_encoder l'.
Proof.
  destruct (failed_read_is_a_dead_end silent_encoder
              {| now := initial; waiting := [reading a_png] |} a_png
              (reachable_turn silent_encoder start _
                 (press h_handleFileUpload {| files := Some [a_png] |})
                 (reachable_start silent_encoder) eq_refl)
              eq_refl)
    as (l' & Hturn & _ & Hstate & _ & Himage & Hrequests & _ & Hrender & Hstuck).
  exists l'.
  split; [exact Hturn|]. split; [exact Hstate|]. split; [exact Himage|].
  split; [exact Hrequests|]. split; [exact Hrender|].
  exact (Hstuck eq_refl).
Defined.



(* ================================================================== *)
(** * More on the classification client *)
(* ================================================================== *)

(** X14. [analyzeWaste] makes a single attempt: whatever the service does,
    exactly one request has been sent when it ends.  A rejection of the
    network call is rethrown as it is; the console gets one line exactly
    when the call fails; and the state, the image, the analysis and the
    error of the component are not touched. *)
Theorem analyzeWaste_single_attempt (base64Image : string)
    (service : Settled GenerateContentResponse) (w : World) :
  let run := geminiService.analyzeWaste base64Image service w in
  requests (world_of run) = requests w ++ [geminiService.request base64Image]
  /\ (forall e, service = Rejected e ->
      exists w', run = Throw e w' [sent base64Image w])
  /\ length (console (world_of run))
     = (length (console w) + if threw run then 1 else 0)%nat
  /\ state (world_of run) = state w
  /\ image (world_of run) = image w
  /\ analysis (world_of run) = analysis w
  /\ error (world_of run) = error w.
Proof.
  intros run. subst run. rewrite analyzeWaste_run.
  split; [destruct (answer service); reflexivity|].
  split.
  { intros e ->. cbn [answer]. eexists. reflexivity. }
  split.
  { destruct (answer service); cbn [world_of threw].
    - unfold logged. cbn [console with_console]. rewrite length_app. reflexivity.
    - cbn. rewrite Nat.add_0_r. reflexivity. }
  destruct (answer service); repeat split.
Qed.

(** X15. What is sent as image data is the piece of the given string
    between its first and its second comma: a string without a comma (raw
    base64, without the data-URL header) gives a request with no data at
    all, and of a string with more commas only that piece is sent. *)
Theorem request_data_is_second_piece (header body more : string) :
  JsString.lacks ","%char header = true ->
  JsString.lacks ","%char body = true ->
  inlineData_data (geminiService.request header) = None
  /\ inlineData_data
       (geminiService.request (header ++ String "," body)%string)
     = Some body
  /\ inlineData_data
       (geminiService.request
          (header ++ String "," (body ++ String "," more))%string)
     = Some body.
Proof.
  intros Hheader Hbody. unfold geminiService.request. cbn [inlineData_data].
  split; [rewrite split_lacks by exact Hheader; reflexivity|].
  split.
  - rewrite split_at_first by exact Hheader.
    rewrite split_lacks by exact Hbody. reflexivity.
  - rewrite split_at_first by exact Hheader.
    rewrite split_at_first by exact Hbody. reflexivity.
Qed.

Lemma request_data_is_second_piece_witness :
  inlineData_data (geminiService.request "TWFu") = None
  /\ inlineData_data (geminiService.request "TWFu,TWFu") = Some "TWFu"
  /\ inlineData_data (geminiService.request "TWFu,TWFu,rest") = Some "TWFu".
Proof.
  exact (request_data_is_second_piece "TWFu" "TWFu" "rest" eq_refl eq_refl).
Defined.

(* ================================================================== *)
(** * More on the camera and the controller *)
(* ================================================================== *)

(** X16. [stopCamera] stops the tracks of the stream on the viewfinder and
    no other: a track is live afterwards exactly when it was live and is
    not a track of that stream.  The stopped stream stays attached to the
    viewfinder. *)
Theorem stopCamera_stops_the_attached_stream (w : World)
    (video : HTMLVideoElement) (stream : MediaStream) :
  videoRef w = Some video ->
  srcObject video = Some stream ->
  let w' := world_of (stopCamera w) in
  (forall track,
      In track (liveTracks w')
      <-> In track (liveTracks w) /\ ~ In track (getTracks stream))
  /\ videoRef w' = Some video
  /\ video_active w' = true
  /\ stream_active w' = false.
Proof.
  intros Hvideo Hstream w'. subst w'. rewrite stopCamera_run.
  cbn [world_of]. unfold after_stop. rewrite Hvideo, Hstream.
  split; [intros track; apply In_stop_all|].
  split; [exact Hvideo|].
  split; [unfold video_active; cbn; rewrite Hvideo, Hstream; reflexivity|].
  unfold stream_active. cbn. rewrite Hvideo, Hstream.
  destruct (existsb _ (getTracks stream)) eqn:E; [|reflexivity].
  apply existsb_exists in E as [track [Hin Hlive]].
  apply existsb_exists in Hlive as [t [Ht Heq]].
  apply Nat.eqb_eq in Heq. subst t.
  apply In_stop_all in Ht as [_ Hnot]. contradiction.
Qed.

Lemma stopCamera_stops_the_attached_stream_witness :
  let w := with_liveTracks [1; 2; 7]%nat filming in
  let w' := world_of (stopCamera w) in
  (forall track,
      In track (liveTracks w')
      <-> In track (liveTracks w) /\ ~ In track [1; 2]%nat)
  /\ videoRef w' = videoRef filming
  /\ video_active w' = true
  /\ stream_active w' = false.
Proof.
  exact (stopCamera_stops_the_attached_stream
           (with_liveTracks [1; 2; 7]%nat filming)
           {| srcObject := Some {| getTracks := [1; 2]%nat |};
              videoWidth := 2; videoHeight := 1;
              currentFrame := Some ["M"; "a"; "n"; "M"; "a"; "n"]%byte |}
           {| getTracks := [1; 2]%nat |} eq_refl eq_refl).
Defined.

(** X17. Whatever the world, [reset] brings back exactly the first screen:
    what is rendered after it is what was rendered when the component was
    mounted; and a second [reset] changes nothing more. *)
Theorem reset_restores_first_screen (w : World) :
  render (final (reset w)) = render initial
  /\ actions (render (final (reset w)))
     = [h_startCamera; h_openFilePicker; h_handleFileUpload]
  /\ final (reset (final (reset w))) = final (reset w).
Proof.
  rewrite !reset_run. cbn [final].
  split; [reflexivity|]. split; [reflexivity|].
  destruct w as [st im an er vr cr lt co rq].
  unfold after_stop. cbn. destruct cr; reflexivity.
Qed.

(* ================================================================== *)
(** * More on the result card and the shutter *)
(* ================================================================== *)

Lemma number_entries_keys (members : list (string * Json.value))
    (entries : list (string * Q)) :
  number_entries members = Some entries ->
  map fst entries = map fst members.
Proof.
  revert entries. induction members as [|[k v] members IH]; intros entries H.
  - injection H as <-. reflexivity.
  - cbn in H. destruct v; try discriminate H.
    destruct (number_entries members) as [es|]; [|discriminate H].
    injection H as <-. cbn. rewrite (IH es eq_refl). reflexivity.
Qed.

Lemma rows_by_key (mainMaterial : string) (entries : list (string * Q)) :
  map row_key (map (confidenceRow mainMaterial) entries) = map fst entries
  /\ map highlighted (map (confidenceRow mainMaterial) entries)
     = map (names mainMaterial) (map fst entries)
  /\ map plain (map (confidenceRow mainMaterial) entries)
     = map (fun key => negb (names mainMaterial key)) (map fst entries).
Proof.
  induction entries as [|[key value] entries (IHk & IHh & IHp)];
    [repeat split|].
  destruct (confidenceRow_highlighted mainMaterial key value) as [Hh Hp].
  cbn [map fst]. rewrite Hh, Hp, IHk, IHh, IHp. repeat split.
Qed.

Lemma filter_map_length {A} (p : A -> bool) (q : string -> bool)
    (f : A -> string) (l : list A) :
  map p l = map q (map f l) ->
  length (filter p l) = length (filter q (map f l)).
Proof.
  induction l as [|a l IH]; [reflexivity|].
  cbn. intros H. injection H as Ha Hl. rewrite Ha.
  destruct (q (f a)); cbn; rewrite (IH Hl); reflexivity.
Qed.

(** Among keys that differ even with letter case ignored, at most one is
    the main material. *)
Lemma one_name_at_most (mainMaterial : string) (keys : list string) :
  NoDup (map JsString.toLowerCase keys) ->
  length (filter (names mainMaterial) keys)
  = if existsb (names mainMaterial) keys then 1%nat else 0%nat.
Proof.
  induction keys as [|key keys IH]; [reflexivity|].
  cbn [map filter existsb]. intros Hnodup.
  apply NoDup_cons_iff in Hnodup as [Hnotin Hnodup].
  destruct (names mainMaterial key) eqn:Hkey; cbn [orb length].
  - f_equal.
    destruct (filter (names mainMaterial) keys) as [|other rest] eqn:E;
      [reflexivity|].
    assert (Hin : In other (filter (names mainMaterial) keys))
      by (rewrite E; left; reflexivity).
    apply filter_In in Hin as [Hin Hother].
    unfold names in Hkey, Hother.
    apply String.eqb_eq in Hkey. apply String.eqb_eq in Hother.
    contradiction Hnotin. rewrite Hkey, <- Hother.
    apply in_map. exact Hin.
  - exact (IH Hnodup).
Qed.

(** X18. For any analysis of the [WasteAnalysis] type — a boolean, two
    strings and an object of numbers, whatever its keys, their number and
    their order, the names being plain — the card has one row for each
    entry of the confidences, in the order of the object, and a row is
    highlighted exactly when its key is the main material with letter case
    ignored, plain otherwise.  So as many rows are highlighted as there are
    such keys: several when keys differ by letter case only, and one or
    none when they do not. *)
Theorem highlighted_rows_are_those_named
    (analysis : Json.value) (isRecyclable : bool)
    (mainMaterial recyclingTip : string)
    (confidences : list (string * Json.value)) (entries : list (string * Q)) :
  Json.prop "isRecyclable" analysis = Some (Json.Bool isRecyclable) ->
  Json.prop "mainMaterial" analysis = Some (Json.Str mainMaterial) ->
  Json.prop "confidences" analysis = Some (Json.Obj confidences) ->
  Json.prop "recyclingTip" analysis = Some (Json.Str recyclingTip) ->
  number_entries confidences = Some entries ->
  NoDup (map fst confidences) ->
  forallb plain_name (mainMaterial :: map fst confidences) = true ->
  let keys := map fst confidences in
  exists card,
    resultCard analysis = Card card
    /\ map row_key (rows card) = keys
    /\ map highlighted (rows card) = map (names mainMaterial) keys
    /\ map plain (rows card) = map (fun key => negb (names mainMaterial key)) keys
    /\ length (filter highlighted (rows card))
       = length (filter (names mainMaterial) keys)
    /\ (NoDup (map JsString.toLowerCase keys) ->
        length (filter highlighted (rows card))
        = if existsb (names mainMaterial) keys then 1%nat else 0%nat).
Proof.
  intros Hrecyclable Hmain Hconfidences Htip Hentries _ _ keys. subst keys.
  unfold resultCard.
  rewrite Hrecyclable, Hmain, Hconfidences, Htip, Hentries.
  eexists. split; [reflexivity|]. cbn [rows].
  destruct (rows_by_key mainMaterial entries) as (Hkeys & Hhigh & Hplain).
  assert (Hlength :
    length (filter highlighted (map (confidenceRow mainMaterial) entries))
    = length (filter (names mainMaterial) (map fst entries))).
  { rewrite <- Hkeys.
    apply (filter_map_length highlighted (names mainMaterial) row_key).
    rewrite Hkeys. exact Hhigh. }
  rewrite (number_entries_keys confidences entries Hentries)
    in Hkeys, Hhigh, Hplain, Hlength.
  split; [exact Hkeys|]. split; [exact Hhigh|]. split; [exact Hplain|].
  split; [exact Hlength|].
  intros Hnodup. rewrite Hlength. apply one_name_at_most, Hnodup.
Qed.

Lemma highlighted_rows_are_those_named_witness :
  WasteAnalysis.has_type six_confidences = true
  /\ exists card,
       resultCard six_confidences = Card card
       /\ map row_key (rows card)
          = ["PLASTIC"; "cardboard"; "glass"; "other"; "paper"; "plastic"]
       /\ map highlighted (rows card) = [true; false; false; false; false; true]
       /\ length (filter highlighted (rows card)) = 2%nat.
Proof.
  split; [reflexivity|].
  assert (Hkeys : NoDup ["PLASTIC"; "cardboard"; "glass"; "other"; "paper"; "plastic"]).
  { repeat constructor; cbn; intuition discriminate. }
  destruct (highlighted_rows_are_those_named six_confidences true
              "Plastic" "Rinse it."
              [ ("PLASTIC", Json.Number 40);
                ("cardboard", Json.Number 5);
                ("glass", Json.Number 5);
                ("other", Json.Number 5);
                ("paper", Json.Number 5);
                ("plastic", Json.Number 40) ]
              [ ("PLASTIC", 40); ("cardboard", 5); ("glass", 5);
                ("other", 5); ("paper", 5); ("plastic", 40) ]%Q
              eq_refl eq_refl eq_refl eq_refl eq_refl Hkeys eq_refl)
    as (card & Hcard & Hrows & Hhigh & _ & Hlength & _).
  exists card.
  split; [exact Hcard|]. split; [exact Hrows|].
  split; [exact Hhigh | exact Hlength].
Defined.

Section ShutterPayload.

Variable encode_image : string -> Q -> HTMLCanvasElement -> list byte.

Lemma toDataURL_pixels (video : HTMLVideoElement) (canvas : HTMLCanvasElement) :
  has_pixels video = true ->
  toDataURL encode_image "image/jpeg" (85 # 100) (snapshot video canvas)
  = ("data:image/jpeg;base64"
     ++ String ","
          (Base64.encode
             (encode_image "image/jpeg" (85 # 100) (snapshot video canvas))))%string.
Proof.
  unfold has_pixels, toDataURL, snapshot. cbn [width height drawImage resize].
  intros H. apply negb_true_iff in H. rewrite H. reflexivity.
Qed.

(** X19. When the video has a width and a height (and the viewfinder, the
    canvas and its 2D context are there), the image [capturePhoto] stores
    is a JPEG data URL that decodes to the bytes of the encoder, and the
    one request it sends carries exactly the base64 text of those bytes. *)
Theorem capturePhoto_payload (service : Settled GenerateContentResponse)
    (w : World) (video : HTMLVideoElement) (canvas : HTMLCanvasElement) :
  videoRef w = Some video ->
  canvasRef w = Some canvas ->
  context2d canvas = true ->
  has_pixels video = true ->
  let run := capturePhoto encode_image service w in
  let jpeg := encode_image "image/jpeg" (85 # 100) (snapshot video canvas) in
  exists dataUrl,
    image (final run) = Some dataUrl
    /\ JsString.startsWith "data:image/jpeg;base64," dataUrl = true
    /\ decodeDataURL dataUrl = Some jpeg
    /\ requests (final run) = requests w ++ [geminiService.request dataUrl]
    /\ inlineData_data (geminiService.request dataUrl)
       = Some (Base64.encode jpeg).
Proof.
  intros Hvideo Hcanvas Hctx Hpixels run jpeg. subst run.
  rewrite (capturePhoto_run encode_image service w video canvas Hvideo Hcanvas).
  rewrite Hctx.
  destruct (processAnalysis_ends
              (toDataURL encode_image "image/jpeg" (85 # 100) (snapshot video canvas))
              service
              (captured
                 (toDataURL encode_image "image/jpeg" (85 # 100)
                    (snapshot video canvas))
                 (snapshot video canvas) w))
    as (_ & _ & Himage & _).
  eexists. split; [rewrite Himage; reflexivity|].
  assert (Hsplit :
    JsString.split ","%char
      (toDataURL encode_image "image/jpeg" (85 # 100) (snapshot video canvas))
    = ["data:image/jpeg;base64"; Base64.encode jpeg]).
  { rewrite (toDataURL_pixels video canvas Hpixels).
    rewrite split_at_first by reflexivity.
    rewrite split_lacks by apply encode_lacks_comma. reflexivity. }
  split.
  { rewrite (toDataURL_pixels video canvas Hpixels).
    generalize (Base64.encode (encode_image "image/jpeg" (85 # 100) (snapshot video canvas))).
    intros body. destruct body; reflexivity. }
  split; [unfold decodeDataURL; rewrite Hsplit; apply decode_encode|].
  split.
  { rewrite processAnalysis_run. destruct (answer service); reflexivity. }
  unfold geminiService.request. cbn [inlineData_data]. rewrite Hsplit. reflexivity.
Qed.

End ShutterPayload.

Lemma capturePhoto_payload_witness :
  let service := Fulfilled {| response_text := Some "{}" |} in
  let run := capturePhoto raw_encoder service filming in
  exists dataUrl,
    image (final run) = Some dataUrl
    /\ JsString.startsWith "data:image/jpeg;base64," dataUrl = true
    /\ decodeDataURL dataUrl = Some ["M"; "a"; "n"; "M"; "a"; "n"]%byte
    /\ requests (final run) = requests filming ++ [geminiService.request dataUrl]
    /\ inlineData_data (geminiService.request dataUrl)
       = Some (Base64.encode ["M"; "a"; "n"; "M"; "a"; "n"]%byte).
Proof.
  exact (capturePhoto_payload raw_encoder
           (Fulfilled {| response_text := Some "{}" |})
           filming
           {| srcObject := Some {| getTracks := [1; 2]%nat |};
              videoWidth := 2; videoHeight := 1;
              currentFrame := Some ["M"; "a"; "n"; "M"; "a"; "n"]%byte |}
           mountedCanvas eq_refl eq_refl eq_refl eq_refl).
Defined.

(* ================================================================== *)
(** * The camera when nothing interleaves *)
(* ================================================================== *)

Lemma stop_all_held (stopped live : list nat) :
  (forall track, In track live -> In track stopped) ->
  stop_all stopped live = [].
Proof.
  intros Hheld.
  destruct (stop_all stopped live) as [|track rest] eqn:E; [reflexivity|].
  assert (Hin : In track (stop_all stopped live)) by (rewrite E; left; reflexivity).
  apply In_stop_all in Hin as [Hlive Hnot].
  contradiction (Hnot (Hheld track Hlive)).
Qed.

(** With every live track on the viewfinder's stream, [stopCamera] leaves
    no track live. *)
Lemma after_stop_held (w : World) :
  camera_held_by_viewfinder w -> after_stop w = [].
Proof.
  intros Hheld. unfold after_stop.
  destruct (videoRef w) as [video|] eqn:Hvideo.
  - destruct (srcObject video) as [stream|] eqn:Hstream.
    + apply stop_all_held. intros track Hin.
      destruct (Hheld track Hin) as (video' & stream' & Hv & Hs & Ht).
      congruence.
    + destruct (liveTracks w) as [|track rest] eqn:E; [reflexivity|].
      destruct (Hheld track) as (video' & stream' & Hv & Hs & _);
        [rewrite E; left; reflexivity|]. congruence.
  - destruct (liveTracks w) as [|track rest] eqn:E; [reflexivity|].
    destruct (Hheld track) as (video' & stream' & Hv & _);
      [rewrite E; left; reflexivity|]. congruence.
Qed.

Lemma nothing_live_held (w : World) :
  liveTracks w = [] -> camera_held_by_viewfinder w.
Proof. intros H track Hin. rewrite H in Hin. destruct Hin. Qed.

Lemma camera_released_event
    (encode_image : string -> Q -> HTMLCanvasElement -> list byte)
    (w : World) (ev : Event) :
  camera_released w ->
  offered (handler_of ev) w = true ->
  camera_released (final (handle encode_image ev w)).
Proof.
  intros (Hcommitted & (canvas & Hcanvas & Hctx) & Hoff & Hheld) Hoffered.
  apply offered_state in Hoffered.
  pose proof (committed_viewfinder w Hcommitted) as Hview.
  destruct ev as [granted| |e service|service|];
    cbn [handler_of] in Hoffered; cbn [handle].
  - (* the camera is opened *)
    assert (Hnone : liveTracks w = []) by (apply Hoff; congruence).
    rewrite Hoffered in Hview. clear Hoff Hheld Hcommitted.
    destruct w as [st im an er vr cr lt co rq].
    cbn in Hoffered, Hview, Hnone, Hcanvas. subst st vr lt cr.
    destruct granted as [stream|err].
    + split; [reflexivity|].
      split; [exists canvas; split; [reflexivity | exact Hctx]|].
      split; [intros H; contradiction H; reflexivity|].
      intros track Hin.
      exists (set_srcObject (Some stream) mountedVideo), stream.
      repeat split. exact Hin.
    + split; [reflexivity|].
      split; [exists canvas; split; [reflexivity | exact Hctx]|].
      split; [reflexivity|]. apply nothing_live_held. reflexivity.
  - (* the file picker is opened *)
    cbn [final ret]. rewrite Hcommitted.
    split; [exact Hcommitted|]. split; [exists canvas; auto|].
    split; [exact Hoff | exact Hheld].
  - (* a file is selected, or none *)
    assert (Hnone : liveTracks w = []) by (apply Hoff; congruence).
    destruct e as [[[|file others]|]].
    + cbn [handleFileUpload files nth_error final ret]. rewrite Hcommitted.
      split; [exact Hcommitted|]. split; [exists canvas; auto|].
      split; [exact Hoff | exact Hheld].
    + rewrite handleFileUpload_run, processAnalysis_run.
      destruct (answer service);
        (split; [apply commit_idempotent|]);
        (split; [exists canvas; cbn; rewrite Hcanvas; auto|]);
        (split; [intros _; exact Hnone|]);
        apply nothing_live_held; exact Hnone.
    + cbn [handleFileUpload files final ret]. rewrite Hcommitted.
      split; [exact Hcommitted|]. split; [exists canvas; auto|].
      split; [exact Hoff | exact Hheld].
  - (* the shutter *)
    rewrite Hoffered in Hview. destruct Hview as [video Hvideo].
    rewrite (capturePhoto_run encode_image service w video canvas Hvideo Hcanvas).
    rewrite Hctx, processAnalysis_run.
    assert (Hnone : after_stop w = []) by (apply after_stop_held, Hheld).
    destruct (answer service);
      (split; [apply commit_idempotent|]);
      (split; [eexists; cbn; split; [reflexivity | exact Hctx]|]);
      (split; [intros _; exact Hnone|]);
      apply nothing_live_held; exact Hnone.
  - (* reset *)
    rewrite reset_run.
    assert (Hnone : after_stop w = []) by (apply after_stop_held, Hheld).
    split; [apply commit_idempotent|].
    split; [exists canvas; cbn; rewrite Hcanvas; auto|].
    split; [intros _; exact Hnone|].
    apply nothing_live_held. exact Hnone.
Qed.

Lemma upload_fails_run (w : World) :
  world_of (upload_fails w)
  = with_state AppState.error
      (with_error (Some analysis_failed)
         (logged null_has_no_split
            (with_error None
               (with_state AppState.analyzing (with_image None (commit w)))))).
Proof. reflexivity. Qed.

(** A failed read touches no track. *)
Lemma camera_released_read_fails (w : World) :
  camera_released w ->
  offered h_handleFileUpload w = true ->
  camera_released (commit (world_of (upload_fails w))).
Proof.
  intros (Hcommitted & (canvas & Hcanvas & Hctx) & Hoff & Hheld) Hoffered.
  apply offered_state in Hoffered.
  assert (Hnone : liveTracks w = []) by (apply Hoff; congruence).
  rewrite upload_fails_run.
  split; [apply commit_idempotent|].
  split; [exists canvas; cbn; rewrite Hcanvas; auto|].
  split; [intros _; exact Hnone|].
  apply nothing_live_held. exact Hnone.
Qed.

(** A frame changes the picture of the viewfinder, not its stream. *)
Lemma camera_released_frame (w : World) (width height : nat) (pixels : Bitmap) :
  camera_released w ->
  stream_active w = true ->
  camera_released (world_of (frame_delivered width height pixels w)).
Proof.
  intros (Hcommitted & (canvas & Hcanvas & Hctx) & Hoff & Hheld) Hactive.
  destruct (frame_delivered_run width height pixels w Hcommitted Hactive)
    as (video & Hvideo & Hstate & Hrun & Hsame).
  rewrite Hrun.
  split; [exact Hsame|].
  split; [exists canvas; split; [exact Hcanvas | exact Hctx]|].
  split; [exact Hoff|].
  intros track Hin.
  destruct (Hheld track Hin) as (video' & stream & Hvideo' & Hstream & Htrack).
  exists (playing width height pixels video), stream.
  split; [reflexivity|]. split; [|exact Htrack].
  cbn [playing srcObject]. congruence.
Qed.

Lemma camera_released_when_in_turn
    (encode_image : string -> Q -> HTMLCanvasElement -> list byte) (w : World) :
  reachable_in_turn encode_image w -> camera_released w.
Proof.
  induction 1 as [|w ev _ IH Hoffered|w _ IH Hoffered
                  |w width height pixels _ IH Hactive].
  - split; [reflexivity|]. split; [eexists; split; reflexivity|].
    split; [reflexivity|]. apply nothing_live_held. reflexivity.
  - exact (camera_released_event encode_image w ev IH Hoffered).
  - exact (camera_released_read_fails w IH Hoffered).
  - exact (camera_released_frame w width height pixels IH Hactive).
Qed.

(** X20. When every handler runs to its end before the next control is
    used — the camera delivering frames to the viewfinder in between, the
    reads ending with a data URL or failing — the camera is released on
    every way out of the capturing state: outside that state no track is
    live, and inside it every live track belongs to the stream on the
    viewfinder. *)
Theorem camera_released_in_turn
    (encode_image : string -> Q -> HTMLCanvasElement -> list byte) (w : World) :
  reachable_in_turn encode_image w ->
  (state w <> AppState.capturing -> liveTracks w = [])
  /\ (forall track,
        In track (liveTracks w) ->
        exists video stream,
          videoRef w = Some video /\ srcObject video = Some stream
          /\ In track (getTracks stream)).
Proof.
  intros Hreachable.
  destruct (camera_released_when_in_turn encode_image w Hreachable)
    as (_ & _ & Hoff & Hheld).
  split; [exact Hoff | exact Hheld].
Qed.

Lemma camera_released_in_turn_witness :
  let stream := {| getTracks := [1; 2]%nat |} in
  let opened :=
    final (handle raw_encoder (click_openCamera (Fulfilled stream)) initial) in
  let filmed :=
    world_of
      (frame_delivered 2 1 ["M"; "a"; "n"; "M"; "a"; "n"]%byte opened) in
  let shot := final (handle raw_encoder (click_shutter plastic_answer) filmed) in
  filmed = filming
  /\ liveTracks filmed = [1; 2]%nat
  /\ state shot = AppState.result
  /\ image shot = Some "data:image/jpeg;base64,TWFuTWFu"
  /\ (state shot <> AppState.capturing -> liveTracks shot = [])
  /\ (forall track,
        In track (liveTracks shot) ->
        exists video stream,
          videoRef shot = Some video /\ srcObject video = Some stream
          /\ In track (getTracks stream)).
Proof.
  intros stream opened filmed shot.
  split; [reflexivity|]. split; [reflexivity|].
  split; [reflexivity|]. split; [reflexivity|].
  apply (camera_released_in_turn raw_encoder).
  apply in_turn_event; [|reflexivity].
  apply in_turn_frame; [|reflexivity].
  apply (in_turn_event raw_encoder initial
           (click_openCamera (Fulfilled stream)));
    [apply in_turn_start | reflexivity].
Defined.

Lemma reachable_consistent_witness :
  exists l,
    turns raw_encoder
      (camera_films ++ [press h_capturePhoto {| files := None |}]) start
    = Some l
    /\ state (now l) = AppState.analyzing
    /\ image (now l) = Some "data:image/jpeg;base64,TWFuTWFu"
    /\ consistent l.
Proof.
  destruct (turns raw_encoder
              (camera_films ++ [press h_capturePhoto {| files := None |}])
              start) as [l|] eqn:Hturns;
    [|discriminate Hturns].
  exists l. split; [reflexivity|].
  split; [vm_compute in Hturns; injection Hturns as <-; reflexivity|].
  split; [vm_compute in Hturns; injection Hturns as <-; reflexivity|].
  exact (reachable_consistent raw_encoder l
           (reachable_turns raw_encoder _ start l
              (reachable_start raw_encoder) Hturns)).
Defined.
